(** * taiki-ts-util: the dependency-injection container and its decorators

    A shallow embedding of [src/di/container.ts] (class [Container] and the
    exported singleton [container]), of [src/di/di.ts] ([Inject] and
    [Injectable]) and of the sample classes [TimeService] and [Consumer],
    followed by the properties of the natural-language specification.

    Modelling choices.
    - JavaScript values are the type [value]; objects live in a heap and a
      value refers to them by location, so that "same identity" is equality
      of values.  Numbers are the integers plus [NaN].
    - Code runs in the monad [M]: a computation takes a [state] and gives a
      [result] (normal return or a thrown exception) together with the state
      it leaves.  A throw keeps the effects made before it, as in JavaScript.
    - [_providers] is an object used as a dictionary: its own entries are a
      [gmap string value], and it has a prototype, [Object.prototype] at
      first, which an assignment under the key [__proto__] replaces.  What
      it inherits counts where JavaScript and lodash look at it: an
      assignment is refused by an inherited accessor or read-only property,
      lodash's [find] treats an object with a numeric [length], own or
      inherited, as an array, and before it iterates the keys of any other
      object it reads [constructor] and the [prototype] of a constructor
      that is a function.  The order of the own keys is not kept: the one
      predicate that the program passes to [find] matches at most one key.
    - A class is its prototype object and its constructor body; a constructor
      body is any computation on the state (it may read injected properties,
      allocate, mutate the container, or throw) and gives what the
      constructor returns.
    - The objects of the heap are extensible, their properties configurable
      and writable, and they inherit from [Object.prototype] in the end, of
      whose members the definitions follow [__proto__] on a provider map
      and no other.
    - The field [_providers] and the methods of a Container instance are
      kept apart from the properties that a program makes on an object.  A
      state in which such a property is named [_providers], [resolve],
      [reserve] or [provider], on a Container or on an object that it
      inherits from, stands for a program that has redefined the field or a
      method on the instance ([Object.defineProperty(container,
      '_providers', ...)]); the definitions do not follow it, and
      [is_container], which the theorems assume, excludes it. *)

From Stdlib Require Import ZArith String Ascii.
From stdpp Require Import gmap strings list fin_maps.

Local Open Scope string_scope.
Local Open Scope Z_scope.

(** ** Values and objects *)

Definition loc := positive.

(** Functions that the platform provides. *)
Inductive builtin :=
  | DateToISOString.

Inductive value :=
  | VUndefined
  | VNull
  | VBool (b : bool)
  | VNum (n : Z)
  | VNaN
  | VStr (s : string)
  | VObj (l : loc)
  | VBuiltin (b : builtin).

#[global] Instance builtin_eq_dec : EqDecision builtin.
Proof. solve_decision. Defined.

#[global] Instance value_eq_dec : EqDecision value.
Proof. solve_decision. Defined.

(** JavaScript's ToBoolean: [undefined], [null], [false], [0], [NaN] and the
    empty string are falsy, everything else is truthy. *)
Definition truthy (v : value) : bool :=
  match v with
  | VUndefined | VNull | VNaN => false
  | VBool b => b
  | VNum n => negb (n =? 0)
  | VStr s => negb (String.eqb s "")
  | VObj _ | VBuiltin _ => true
  end.

(** Thrown things: an [Error] object with its message, the platform's
    [TypeError] and [RangeError], or any value a program throws. *)
Inductive exn :=
  | Error (message : string)
  | TypeError
  | RangeError
  | Thrown (v : value).

(** A property is a data slot or the accessor that [Inject] installs, whose
    getter is [() => container.resolve(token)]. *)
Inductive prop :=
  | PData (v : value)
  | PGetter (token : string).

(** Bodies of the functions of the program. *)
Inductive fcode :=
  | FConst (v : value)          (* () => v *)
  | FGetCurrentDate.            (* TimeService.prototype.getCurrentDate *)

(** The prototype of a provider map: [Object.prototype], [null], or an
    object (a function is one) given through [__proto__]. *)
Inductive proto_ref :=
  | ProtoObject
  | ProtoNull
  | ProtoOf (v : value).

(** What an object is besides a bag of properties. *)
Inductive kind :=
  | KPlain
  | KFunction (code : fcode)
  | KDate (tv : option Z)                         (* time value; None is NaN *)
  | KContainer (_providers : gmap string value)   (* a Container instance: *)
               (proto : proto_ref).               (* own entries, prototype *)

(** An object: its prototype chain (nearest first), its own properties and
    its kind. *)
Record obj := mkObj {
  chain : list loc;
  props : gmap string prop;
  okind : kind
}.

(** One entry of the call log: callee, receiver, arguments. *)
Record call := mkCall { callee : value; receiver : value; args : list value }.

Record state := mkState {
  heap : gmap loc obj;
  clock : Z;                    (* what Date.now() reads *)
  calls : list call             (* log of function invocations, oldest first *)
}.

Definition set_heap (f : gmap loc obj → gmap loc obj) (s : state) : state :=
  mkState (f (heap s)) (clock s) (calls s).

(** ** The monad of computations *)

Inductive result (A : Type) :=
  | Ret (a : A)
  | Throw (e : exn).
Arguments Ret {A} a.
Arguments Throw {A} e.

Definition M (A : Type) : Type := state → result A * state.

Definition ret {A} (a : A) : M A := λ s, (Ret a, s).
Definition throw {A} (e : exn) : M A := λ s, (Throw e, s).
Definition bind {A B} (m : M A) (k : A → M B) : M B :=
  λ s, match m s with
       | (Ret a, s') => k a s'
       | (Throw e, s') => (Throw e, s')
       end.
Definition get_state : M state := λ s, (Ret s, s).
Definition modify (f : state → state) : M unit := λ s, (Ret tt, f s).

#[global] Instance M_ret : MRet M := @ret.
#[global] Instance M_bind : MBind M := λ A B k m, bind m k.

(** Allocation: a fresh location for the object. *)
Definition alloc (o : obj) : M loc :=
  λ s, let l := fresh (dom (heap s)) in (Ret l, set_heap <[l := o]> s).

Definition plain (chain : list loc) (props : gmap string prop) : obj :=
  mkObj chain props KPlain.

(** ** What a provider map inherits *)

Definition is_object (v : value) : bool :=
  match v with
  | VObj _ | VBuiltin _ => true
  | _ => false
  end.

(** lodash's [isLength]: a number that is an integer from 0 to 2^53 - 1. *)
Definition is_length (v : value) : bool :=
  match v with
  | VNum n => (0 <=? n) && (n <=? 9007199254740991)
  | _ => false
  end.

(** A property as an assignment or a read through the prototype chain
    meets it. *)
Inductive slot :=
  | SData (v : value)            (* writable data *)
  | SLocked (v : option value)   (* read-only data: the [length] (0) and the
                                    [name] (a string, not tracked) of a
                                    function *)
  | SGetter (tok : string)       (* the accessor of [Inject], no setter *)
  | SThrower.                    (* accessor whose getter and setter throw a
                                    TypeError: [caller] and [arguments] of
                                    [Function.prototype] *)

(** The own property [key] of an object; the functions of the program take
    no parameter, so their [length] is 0. *)
Definition own_slot (o : obj) (key : string) : option slot :=
  match props o !! key with
  | Some (PData v) => Some (SData v)
  | Some (PGetter tok) => Some (SGetter tok)
  | None =>
      match okind o with
      | KFunction _ =>
          if String.eqb key "length" then Some (SLocked (Some (VNum 0)))
          else if String.eqb key "name" then Some (SLocked None)
          else None
      | _ => None
      end
  end.

Fixpoint first_slot (os : list obj) (key : string) : option slot :=
  match os with
  | [] => None
  | o :: rest =>
      match own_slot o key with
      | Some sl => Some sl
      | None => first_slot rest key
      end
  end.

(** The objects that a lookup starting at [l] visits, nearest first. *)
Definition layers (h : gmap loc obj) (l : loc) : list obj :=
  omap (λ x, h !! x) (l :: match h !! l with Some o => chain o | None => [] end).

(** [Function.prototype], which ends the chain of a function. *)
Definition function_prototype_slot (key : string) : option slot :=
  if String.eqb key "length" then Some (SLocked (Some (VNum 0)))
  else if String.eqb key "name" then Some (SLocked None)
  else if String.eqb key "caller" then Some SThrower
  else if String.eqb key "arguments" then Some SThrower
  else None.

Definition ends_in_function (os : list obj) : bool :=
  match last os with
  | Some o => match okind o with KFunction _ => true | _ => false end
  | None => false
  end.

(** The property [key] that an object whose prototype is [pv] inherits
    from it, [Object.prototype] left aside. *)
Definition inherited_slot (h : gmap loc obj) (pv : value) (key : string) : option slot :=
  match pv with
  | VObj l =>
      match first_slot (layers h l) key with
      | Some sl => Some sl
      | None =>
          if ends_in_function (layers h l) then function_prototype_slot key
          else None
      end
  | VBuiltin _ => function_prototype_slot key
  | _ => None
  end.

(** First property named [key] along a prototype chain. *)
Fixpoint lookup_chain (h : gmap loc obj) (ch : list loc) (key : string) : option prop :=
  match ch with
  | [] => None
  | p :: rest =>
      match h !! p with
      | Some o =>
          match props o !! key with
          | Some pr => Some pr
          | None => lookup_chain h rest key
          end
      | None => lookup_chain h rest key
      end
  end.

(** The property that [l.key] denotes: own first, then inherited. *)
Definition lookup_prop (h : gmap loc obj) (l : loc) (key : string) : option prop :=
  match h !! l with
  | Some o =>
      match props o !! key with
      | Some pr => Some pr
      | None => lookup_chain h (chain o) key
      end
  | None => None
  end.

(** The index that a canonical decimal string denotes. *)
Definition digit_of (a : ascii) : option Z :=
  let n := Z.of_nat (nat_of_ascii a) in
  if (48 <=? n) && (n <=? 57) then Some (n - 48) else None.

Fixpoint parse_digits (acc : Z) (s : string) : option Z :=
  match s with
  | EmptyString => Some acc
  | String a rest =>
      match digit_of a with
      | Some d => parse_digits (10 * acc + d) rest
      | None => None
      end
  end.

Definition parse_index (s : string) : option Z :=
  match s with
  | EmptyString => None
  | String a rest =>
      if Ascii.eqb a "0"%char then (if String.eqb rest "" then Some 0 else None)
      else parse_digits 0 s
  end.

(** ** src/di/container.ts *)

(** Modelled from the spec: the type [LooseObject] of [src/di/types.ts],
    which is not among the sources; the spec has "a single shared mapping
    from token to instance", type-erased. *)
Notation LooseObject := (gmap string value).

Section Find.

(** The heap, what running the getter of an inherited accessor gives, and
    the collection: its own entries and its prototype. *)
Variables (h : gmap loc obj) (on_get : string → result value)
  (collection : LooseObject) (proto : proto_ref).

(** [collection.length] as [isArrayLike] reads it: the length when it is
    one, or what the getter throws. *)
Definition read_length : result (option Z) :=
  let as_length v := if is_length v then
                       match v with VNum n => Some n | _ => None end
                     else None in
  match collection !! "length" with
  | Some v => Ret (as_length v)
  | None =>
      match proto with
      | ProtoOf pv =>
          match inherited_slot h pv "length" with
          | Some (SData v) | Some (SLocked (Some v)) => Ret (as_length v)
          | Some (SGetter tok) =>
              match on_get tok with
              | Ret v => Ret (as_length v)
              | Throw e => Throw e
              end
          | Some SThrower => Throw TypeError
          | Some (SLocked None) | None => Ret None
          end
      | _ => Ret None
      end
  end.

(** What reading [collection[key]] throws, if it throws. *)
Definition read_throws (key : string) : option exn :=
  match collection !! key with
  | Some _ => None
  | None =>
      match proto with
      | ProtoOf pv =>
          match inherited_slot h pv key with
          | Some (SGetter tok) =>
              match on_get tok with
              | Ret _ => None
              | Throw e => Some e
              end
          | Some SThrower => Some TypeError
          | _ => None
          end
      | _ => None
      end
  end.

(** The first index below [n], in increasing order, whose read throws, with
    what it throws: such an index names a property of an inherited object. *)
Definition scan_indices (n : Z) : option exn :=
  match proto with
  | ProtoOf (VObj l) =>
      let keys := layers h l ≫= (λ o, (map_to_list (props o)).*1) in
      let hits := omap (λ key,
                    match parse_index key with
                    | Some i =>
                        if i <? n then (λ e, (i, e)) <$> read_throws key
                        else None
                    | None => None
                    end) keys in
      snd <$> foldr (λ hit best,
                match best with
                | Some b => if hit.1 <? b.1 then Some hit else Some b
                | None => Some hit
                end) None hits
  | _ => None
  end.

(** [collection.constructor], as [isPrototype] reads it; [undefined]
    stands for the constructors that are not objects of the heap, [Object]
    and the classes, whose [prototype] is a data property. *)
Definition read_constructor : result value :=
  match collection !! "constructor" with
  | Some v => Ret v
  | None =>
      match proto with
      | ProtoOf pv =>
          match inherited_slot h pv "constructor" with
          | Some (SData v) | Some (SLocked (Some v)) => Ret v
          | Some (SGetter tok) => on_get tok
          | Some SThrower => Throw TypeError
          | Some (SLocked None) | None => Ret VUndefined
          end
      | _ => Ret VUndefined
      end
  end.

(** What reading [Ctor.prototype] throws, if it throws: [isPrototype]
    reads it when [Ctor] is a function. *)
Definition prototype_throws (Ctor : value) : option exn :=
  match Ctor with
  | VObj f =>
      match okind <$> h !! f, lookup_prop h f "prototype" with
      | Some (KFunction _), Some (PGetter tok) =>
          match on_get tok with
          | Ret _ => None
          | Throw e => Some e
          end
      | _, _ => None
      end
  | _ => None
  end.

(** lodash's [find], at the one predicate that the program passes,
    [(_provider, key) => key === token].  A collection with a [length] is
    iterated as an array, its keys the numbers below the length, none of
    which is the token (a string): the result is [undefined].  Otherwise
    the own keys are iterated, after [isPrototype] has read [constructor]
    and the [prototype] of a constructor that is a function, and the
    result is the value under the token, [undefined] when there is none. *)
Definition find (token : string) : result value :=
  match read_length with
  | Throw e => Throw e
  | Ret (Some n) =>
      match scan_indices n with
      | Some e => Throw e
      | None => Ret VUndefined
      end
  | Ret None =>
      match read_constructor with
      | Throw e => Throw e
      | Ret Ctor =>
          match prototype_throws Ctor with
          | Some e => Throw e
          | None => Ret (default VUndefined (collection !! token))
          end
      end
  end.

(** [collection[token] = v]: an own entry is overwritten; else the chain
    decides: an inherited accessor without setter or read-only property
    refuses the assignment (TypeError in strict code), the [__proto__]
    accessor of [Object.prototype] takes an object or [null] as the new
    prototype and ignores anything else, and otherwise the entry is
    created. *)
Definition assign (token : string) (v : value) : result (LooseObject * proto_ref) :=
  let create := Ret (<[token := v]> collection, proto) in
  let set_prototype :=
    Ret (collection,
         if is_object v then ProtoOf v
         else match v with VNull => ProtoNull | _ => proto end) in
  match collection !! token with
  | Some _ => create
  | None =>
      match proto with
      | ProtoNull => create
      | ProtoObject =>
          if String.eqb token "__proto__" then set_prototype else create
      | ProtoOf pv =>
          match inherited_slot h pv token with
          | Some (SData _) => create
          | Some _ => Throw TypeError
          | None =>
              if String.eqb token "__proto__" then set_prototype else create
          end
      end
  end.

End Find.

Record IContainerProvider := mkProvider {
  userValue : value;
  token : string
}.

(** Modelled from the spec: the type [LooseClass] of [src/di/types.ts],
    which is not among the sources; the spec has "a zero-argument
    constructible class/factory".  A class is its prototype object and the
    body of its constructor, run on the freshly allocated [this]; the body
    gives what the constructor returns, [undefined] when it has no
    [return]. *)
Record LooseClass := mkClass {
  prototype : loc;
  ctor : loc → M value
}.

(** The prototype chain of an object whose prototype is [p]. *)
Definition proto_chain (h : gmap loc obj) (p : loc) : list loc :=
  p :: match h !! p with Some o => chain o | None => [] end.

(** [new target()]: a fresh object that inherits from the prototype, the
    constructor body run on it; the result is the object that the
    constructor returns, if it returns one, and the fresh object if not. *)
Definition new_ (target : LooseClass) : M value :=
  s ← get_state;
  this ← alloc (plain (proto_chain (heap s) (prototype target)) ∅);
  returned ← ctor target this;
  mret (if is_object returned then returned else VObj this).

(** [c._providers], its own entries: [undefined] when [c] is not a
    Container, on which [find] returns [undefined] as on the empty
    dictionary. *)
Definition providers_of (c : loc) (s : state) : LooseObject :=
  match heap s !! c with
  | Some (mkObj _ _ (KContainer p _)) => p
  | _ => ∅
  end.

(** The prototype of [c._providers]. *)
Definition proto_of (c : loc) (s : state) : proto_ref :=
  match heap s !! c with
  | Some (mkObj _ _ (KContainer _ pr)) => pr
  | _ => ProtoObject
  end.

(** [c._providers[token] = v] *)
Definition set_provider (c : loc) (token : string) (v : value) : M unit :=
  λ s, match heap s !! c with
       | Some (mkObj ch ps (KContainer p pr)) =>
           match assign (heap s) p pr token v with
           | Ret (p', pr') =>
               (Ret tt, set_heap <[c := mkObj ch ps (KContainer p' pr')]> s)
           | Throw e => (Throw e, s)
           end
       | _ => (Throw TypeError, s)
       end.

(** [export const container = new Container()]: the first object allocated. *)
Definition container : loc := 1%positive.

(** [new Container()]: [_providers] is a new [{}]. *)
Definition new_Container : M loc := alloc (mkObj [] ∅ (KContainer ∅ ProtoObject)).

(** The getter of an inherited accessor is [() => container.resolve(tok)].
    Run while the exported container scans its own [_providers], it starts
    the same scan again, which meets the same accessor: the calls nest
    until the stack is exhausted, a RangeError. *)
Definition reentered : string → result value := λ _, Throw RangeError.

Module Container.

(** [resolve], the getters met by the scan being run by [on_get]. *)
Definition resolve_under (on_get : string → result value)
    (this : loc) (token : string) (s : state) : result value :=
  match find (heap s) on_get (providers_of this s) (proto_of this s) token with
  | Ret matchedProvider =>
      if truthy matchedProvider then Ret matchedProvider
      else Throw (Error ("No provider found for " ++ token))
  | Throw e => Throw e
  end.

Definition resolve (this : loc) (token : string) : M value :=
  λ s, (resolve_under
          (if decide (this = container) then reentered
           else λ tok, resolve_under reentered container tok s)
          this token s, s).

Definition reserve (this : loc) (token : string) (target : LooseClass) : M unit :=
  v ← new_ target;
  set_provider container token v.

Definition provider (this : loc) (details : IContainerProvider) : M unit :=
  set_provider this (token details) (userValue details).

End Container.

(** ** The platform: properties, calls, dates *)

(** Members that the platform's prototypes give to an object of a kind. *)
Definition builtin_member (k : kind) (key : string) : value :=
  match k with
  | KDate _ => if String.eqb key "toISOString" then VBuiltin DateToISOString else VUndefined
  | _ => VUndefined
  end.

(** [v.key], read.  Reading a property of [undefined] or [null] is a
    TypeError; an accessor installed by [Inject] runs its getter.  The
    members of the wrappers of primitive values are not modelled: none of
    them is named [getCurrentDate] or [toISOString]. *)
Definition get_prop (v : value) (key : string) : M value :=
  match v with
  | VUndefined | VNull => throw TypeError
  | VObj l =>
      s ← get_state;
      match lookup_prop (heap s) l key with
      | Some (PData x) => mret x
      | Some (PGetter tok) => Container.resolve container tok
      | None =>
          match heap s !! l with
          | Some o => mret (builtin_member (okind o) key)
          | None => mret VUndefined
          end
      end
  | _ => mret VUndefined
  end.

(** [this.key = v] in strict code: an accessor without a setter refuses the
    write with a TypeError, else the own data property is written. *)
Definition set_prop (this : loc) (key : string) (v : value) : M unit :=
  λ s, match lookup_prop (heap s) this key, heap s !! this with
       | Some (PGetter _), _ => (Throw TypeError, s)
       | _, Some o =>
           (Ret tt, set_heap <[this := mkObj (chain o) (<[key := PData v]> (props o)) (okind o)]> s)
       | _, None => (Throw TypeError, s)
       end.

(** [Object.defineProperty(target, key, { get: () => container.resolve(token), ... })] *)
Definition define_getter (target : loc) (key : string) (tok : string) : M unit :=
  λ s, match heap s !! target with
       | Some o =>
           (Ret tt, set_heap <[target := mkObj (chain o) (<[key := PGetter tok]> (props o)) (okind o)]> s)
       | None => (Throw TypeError, s)
       end.

(** Decimal digits of [k], padded to [n] places. *)
Fixpoint digits (n : nat) (k : Z) : string :=
  match n with
  | O => ""
  | S n' => digits n' (k / 10) ++ String (ascii_of_nat (48 + Z.to_nat (k mod 10))) ""
  end.

(** Year, month and day of the day number [days] (days since 1970-01-01) in
    the proleptic Gregorian calendar. *)
Definition civil_from_days (days : Z) : Z * Z * Z :=
  let z := days + 719468 in
  let era := z / 146097 in
  let doe := z - era * 146097 in
  let yoe := (doe - doe / 1460 + doe / 36524 - doe / 146096) / 365 in
  let doy := doe - (365 * yoe + yoe / 4 - yoe / 100) in
  let mp := (5 * doy + 2) / 153 in
  let d := doy - (153 * mp + 2) / 5 + 1 in
  let m := if mp <? 10 then mp + 3 else mp - 9 in
  let y := yoe + era * 400 + (if m <=? 2 then 1 else 0) in
  (y, m, d).

(** [Date.prototype.toISOString] on a valid time value (milliseconds since
    the epoch): YYYY-MM-DDTHH:mm:ss.sssZ, the year with a sign and six
    digits outside 0..9999. *)
Definition toISOString (t : Z) : string :=
  let '(y, m, d) := civil_from_days (t / 86400000) in
  let ms := t mod 86400000 in
  let year := if (0 <=? y) && (y <=? 9999) then digits 4 y
              else (if y <? 0 then "-" else "+") ++ digits 6 (Z.abs y) in
  year ++ "-" ++ digits 2 m ++ "-" ++ digits 2 d ++ "T" ++
  digits 2 (ms / 3600000) ++ ":" ++ digits 2 (ms / 60000 mod 60) ++ ":" ++
  digits 2 (ms / 1000 mod 60) ++ "." ++ digits 3 (ms mod 1000) ++ "Z".

(** TimeClip: a time value beyond 8.64e15 ms is not one. *)
Definition time_clip (ms : Z) : option Z :=
  if Z.abs ms <=? 8640000000000000 then Some ms else None.

(** [new Date(ms)] *)
Definition new_Date (ms : Z) : M value :=
  l ← alloc (mkObj [] ∅ (KDate (time_clip ms)));
  mret (VObj l).

Definition Date_now : M Z := λ s, (Ret (clock s), s).

Definition logged (c : call) (s : state) : state :=
  mkState (heap s) (clock s) (calls s ++ [c]).

Definition log_call (c : call) : M unit := modify (logged c).

Definition run_code (code : fcode) : M value :=
  match code with
  | FConst v => mret v
  | FGetCurrentDate => now ← Date_now; new_Date now
  end.

(** [f.call(this, ...args)]: calling what is not a function is a TypeError;
    a call that starts is logged. *)
Definition call_ (f this : value) (args : list value) : M value :=
  s ← get_state;
  match f with
  | VBuiltin DateToISOString =>
      log_call (mkCall f this args);;
      match this with
      | VObj l =>
          match okind <$> heap s !! l with
          | Some (KDate (Some t)) => mret (VStr (toISOString t))
          | Some (KDate None) => throw RangeError
          | _ => throw TypeError
          end
      | _ => throw TypeError
      end
  | VObj l =>
      match okind <$> heap s !! l with
      | Some (KFunction code) => log_call (mkCall f this args);; run_code code
      | _ => throw TypeError
      end
  | _ => throw TypeError
  end.

(** ** src/di/di.ts *)

Definition Inject (token : string) : loc → string → M unit :=
  λ target key, define_getter target key token.

Definition Injectable (token : string) : LooseClass → M unit :=
  λ target, Container.reserve container token target.

(** ** The sample classes [TimeService] and [Consumer]

    Field declarations without initialiser ([timeService], [currentDate])
    emit nothing, so the accessor on the prototype is what [this.timeService]
    reads. *)

Definition TimeService (proto : loc) : LooseClass :=
  mkClass proto (λ _, mret VUndefined).

(** [this.currentDate = this.timeService.getCurrentDate().toISOString()] *)
Definition Consumer_constructor (this : loc) : M unit :=
  timeService ← get_prop (VObj this) "timeService";
  getCurrentDate ← get_prop timeService "getCurrentDate";
  date ← call_ getCurrentDate timeService [];
  method ← get_prop date "toISOString";
  iso ← call_ method date [];
  set_prop this "currentDate" iso.

Definition Consumer (proto : loc) : LooseClass :=
  mkClass proto (λ this, Consumer_constructor this;; mret VUndefined).

(** Evaluating the class declarations, in source order: the methods and the
    prototype of each class, the property decorators, then the class
    decorator.  Each gives the prototype of its class. *)
Definition declare_TimeService : M loc :=
  f ← alloc (mkObj [] ∅ (KFunction FGetCurrentDate));
  proto ← alloc (plain [] {[ "getCurrentDate" := PData (VObj f) ]});
  Injectable "timeService" (TimeService proto);;
  mret proto.

Definition declare_Consumer : M loc :=
  proto ← alloc (plain [] ∅);
  Inject "timeService" proto "timeService";;
  Injectable "consumer" (Consumer proto);;
  mret proto.

(** The state in which only [container.ts] has been evaluated. *)
Definition fresh_state (now : Z) : state :=
  (new_Container (mkState ∅ now [])).2.

(** Loading the module of the sample classes; gives the prototypes of
    [TimeService] and [Consumer]. *)
Definition load_classes : M (loc * loc) :=
  ts ← declare_TimeService;
  c ← declare_Consumer;
  mret (ts, c).

(** A test double for [TimeService]: an object whose [getCurrentDate] is
    [() => v].  Gives the object and the function. *)
Definition make_mock (v : value) : M (value * value) :=
  f ← alloc (mkObj [] ∅ (KFunction (FConst v)));
  m ← alloc (plain [] {[ "getCurrentDate" := PData (VObj f) ]});
  mret (VObj m, VObj f).

(** The set-up of the Consumer test: the classes are loaded, then
    'timeService' is overridden with a mock whose [getCurrentDate] returns
    what [result] makes.  Gives the prototype of Consumer, the mock and its
    [getCurrentDate]. *)
Definition arrange (result : M value) : M (loc * value * value) :=
  '(_, consumer) ← load_classes;
  r ← result;
  '(m, f) ← make_mock r;
  Container.provider container (mkProvider m "timeService");;
  mret (consumer, m, f).

(** A string [t] occurs in [msg]. *)
Definition contains (msg t : string) : Prop :=
  ∃ pre post : string, msg = pre ++ t ++ post.

(** ** Vocabulary of the properties *)

(** [c] is an instance of the class Container in [s]. *)
Definition is_instance (c : loc) (s : state) : bool :=
  match okind <$> heap s !! c with
  | Some (KContainer _ _) => true
  | _ => false
  end.

(** [l.key] is no property that a program has made. *)
Definition lacks (h : gmap loc obj) (l : loc) (key : string) : bool :=
  match lookup_prop h l key with
  | None => true
  | Some _ => false
  end.

(** [c] is a Container instance in [s] with the field and the methods that
    the class gave it: no property made by the program on [c], or on an
    object that [c] inherits from, is named [_providers], [resolve],
    [reserve] or [provider]. *)
Definition is_container (c : loc) (s : state) : bool :=
  is_instance c s &&
  forallb (lacks (heap s) c) ["_providers"; "resolve"; "reserve"; "provider"].

(** [n] consecutive reads of [o.key], oldest first. *)
Fixpoint reads (n : nat) (o : loc) (key : string) : M (list value) :=
  match n with
  | O => mret []
  | S n' => v ← get_prop (VObj o) key; vs ← reads n' o key; mret (v :: vs)
  end.

(** [o.key] is a property decorated with [Inject(tok)]. *)
Definition injected (s : state) (o : loc) (key tok : string) : Prop :=
  lookup_prop (heap s) o key = Some (PGetter tok).

(** The calls that write the container: [c.provider(details)] and
    [c.reserve(tok, target)]. *)
Inductive action :=
  | Override (c : loc) (details : IContainerProvider)
  | Register (c : loc) (tok : string) (target : LooseClass).

Definition perform (a : action) : M unit :=
  match a with
  | Override c details => Container.provider c details
  | Register c tok target => Container.reserve c tok target
  end.

(** The state after a history of such calls, each one run to its end
    (normal or not) in the state the previous one left. *)
Definition perform_all (history : list action) (s : state) : state :=
  foldl (λ s a, (perform a s).2) s history.

(** The constructor of [target] never gives [c] an entry for [t]. *)
Definition ctor_leaves_absent (target : LooseClass) (c : loc) (t : string) : Prop :=
  ∀ this s, providers_of c s !! t = None →
            providers_of c (ctor target this s).2 !! t = None.

(** The action neither registers nor overrides [t] in [c]. *)
Definition leaves_absent (c : loc) (t : string) (a : action) : Prop :=
  match a with
  | Override c' details => c' = c → token details ≠ t
  | Register _ tok target =>
      (c = container → tok ≠ t) ∧ ctor_leaves_absent target c t
  end.


(** The state in which the constructor body of [new target()] starts, and
    the location of its [this]. *)
Definition allocated (target : LooseClass) (s : state) : loc * state :=
  let this := fresh (dom (heap s)) in
  (this, set_heap <[this := plain (proto_chain (heap s) (prototype target)) ∅]> s).

(** The live entries that container [c] holds under token [t]. *)
Definition entries (c : loc) (s : state) (t : string) : list (string * value) :=
  filter (λ kv, kv.1 = t) (map_to_list (providers_of c s)).

(** The calls of [f] logged in [s'] since [s]. *)
Definition calls_since (s s' : state) (f : value) : list call :=
  filter (λ c, callee c = f) (drop (length (calls s)) (calls s')).



(** A class whose constructor is [this.key = v]. *)
Definition assigning_class (proto : loc) (key : string) (v : value) : LooseClass :=
  mkClass proto (λ this, set_prop this key v;; mret VUndefined).

(** [getCurrentDate] of a [TimeService] instance is the method of the
    class: [ts.getCurrentDate] is the function [f], whose body is
    [new Date(Date.now())]. *)
Definition is_time_service (s : state) (ts f : loc) : Prop :=
  lookup_prop (heap s) ts "getCurrentDate" = Some (PData (VObj f)) ∧
  okind <$> heap s !! f = Some (KFunction FGetCurrentDate).

(** The provider map of [c] has [Object.prototype] or [null] as its
    prototype: it inherits nothing that [find] or an assignment meets. *)
Definition inherits_nothing (c : loc) (s : state) : bool :=
  match proto_of c s with
  | ProtoOf _ => false
  | _ => true
  end.

(** The provider map of [c] has its first prototype, [Object.prototype]. *)
Definition first_prototype (c : loc) (s : state) : bool :=
  match proto_of c s with
  | ProtoObject => true
  | _ => false
  end.

(** A dictionary with an own [length] that is one: lodash iterates it as
    an array. *)
Definition array_like (p : LooseObject) : bool :=
  match p !! "length" with
  | Some v => is_length v
  | None => false
  end.

(** The own [constructor] entry of the dictionary is a function whose
    [prototype] is an accessor of [Inject]: [isPrototype] runs its getter. *)
Definition constructor_trap (h : gmap loc obj) (p : LooseObject) : bool :=
  match p !! "constructor" with
  | Some (VObj f) =>
      match okind <$> h !! f, lookup_prop h f "prototype" with
      | Some (KFunction _), Some (PGetter _) => true
      | _, _ => false
      end
  | _ => false
  end.

(** A dictionary that lodash iterates by its own keys, no getter run: not
    array-like, and with no such [constructor]. *)
Definition keyed (h : gmap loc obj) (p : LooseObject) : bool :=
  negb (array_like p) && negb (constructor_trap h p).

(** The constructor of [target] leaves the prototype of the provider map
    of [c] as it is. *)
Definition ctor_keeps_prototype (target : LooseClass) (c : loc) : Prop :=
  ∀ this s, proto_of c (ctor target this s).2 = proto_of c s.

(** The action does not assign under [__proto__] in [c]. *)
Definition keeps_prototype (c : loc) (a : action) : Prop :=
  match a with
  | Override c' details => c' = c → token details ≠ "__proto__"
  | Register _ tok target =>
      (c = container → tok ≠ "__proto__") ∧ ctor_keeps_prototype target c
  end.


(** ** Basic facts *)

Section Basics.

Implicit Types (s : state) (c l : loc) (t key : string) (v : value)
  (p : gmap string value) (h : gmap loc obj).

(** A collection that inherits nothing: [find] is the key lookup, unless an
    own [length] makes the collection an array for lodash, or reading the
    [prototype] of an own [constructor] throws. *)
Lemma find_plain h on_get p pr t :
  (∀ pv, pr ≠ ProtoOf pv) →
  find h on_get p pr t =
    if array_like p then Ret VUndefined
    else match prototype_throws h on_get (default VUndefined (p !! "constructor")) with
         | Some e => Throw e
         | None => Ret (default VUndefined (p !! t))
         end.
Proof.
  intros Hpr.
  unfold find, read_length, read_constructor, scan_indices, array_like.
  destruct (p !! "length") as [v|] eqn:Hlen.
  - destruct (is_length v) eqn:Hv.
    + destruct v; try discriminate Hv. by destruct pr as [| |pv]; [..|destruct (Hpr pv)].
    + destruct (p !! "constructor"); [done|].
      by destruct pr as [| |pv]; [..|destruct (Hpr pv)].
  - destruct pr as [| |pv]; [..|by destruct (Hpr pv)];
      by destruct (p !! "constructor").
Qed.

Lemma prototype_throws_trap h on_get p :
  constructor_trap h p = false →
  prototype_throws h on_get (default VUndefined (p !! "constructor")) = None.
Proof.
  unfold constructor_trap, prototype_throws.
  destruct (p !! "constructor") as [[| | | | | |f|]|]; simpl; try done.
  destruct (okind <$> h !! f) as [[]|]; try done.
  by destruct (lookup_prop h f "prototype") as [[]|].
Qed.

Lemma constructor_trap_absent h p :
  p !! "constructor" = None → constructor_trap h p = false.
Proof. unfold constructor_trap. by intros ->. Qed.

Lemma keyed_spec h p :
  keyed h p = true ↔ array_like p = false ∧ constructor_trap h p = false.
Proof.
  unfold keyed. destruct (array_like p), (constructor_trap h p); simpl;
    split; try done; by intros [? ?].
Qed.

Lemma find_keyed h on_get p pr t :
  (∀ pv, pr ≠ ProtoOf pv) → keyed h p = true →
  find h on_get p pr t = Ret (default VUndefined (p !! t)).
Proof.
  intros Hpr [Harr Htrap]%keyed_spec.
  by rewrite find_plain, Harr, prototype_throws_trap.
Qed.

Lemma keyed_insert h p t v :
  t ≠ "length" → t ≠ "constructor" → keyed h (<[t := v]> p) = keyed h p.
Proof.
  intros Hl Hc. unfold keyed, array_like, constructor_trap.
  by rewrite !lookup_insert_ne.
Qed.

Lemma inherits_nothing_spec c s :
  inherits_nothing c s = true → ∀ pv, proto_of c s ≠ ProtoOf pv.
Proof. unfold inherits_nothing. intros H pv Heq. by rewrite Heq in H. Qed.

(** What [resolve] does on a provider map that inherits nothing and is
    iterated by its keys. *)
Lemma resolve_eq c t s :
  inherits_nothing c s = true →
  keyed (heap s) (providers_of c s) = true →
  Container.resolve c t s =
    (match providers_of c s !! t with
     | Some v => if truthy v then Ret v
                 else Throw (Error ("No provider found for " ++ t))
     | None => Throw (Error ("No provider found for " ++ t))
     end, s).
Proof.
  intros Hin Hk. unfold Container.resolve, Container.resolve_under.
  rewrite find_keyed by (done || by apply inherits_nothing_spec).
  destruct (providers_of c s !! t) as [v|]; simpl; [|done].
  by destruct (truthy v).
Qed.

(** On an array-like provider map that inherits nothing, no token resolves. *)
Lemma resolve_array_like c t s :
  inherits_nothing c s = true →
  array_like (providers_of c s) = true →
  Container.resolve c t s = (Throw (Error ("No provider found for " ++ t)), s).
Proof.
  intros Hin Harr. unfold Container.resolve, Container.resolve_under.
  rewrite find_plain by (by apply inherits_nothing_spec). by rewrite Harr.
Qed.

Lemma resolve_state c t s : (Container.resolve c t s).2 = s.
Proof. done. Qed.

Lemma append_empty_r (t : string) : t ++ "" = t.
Proof.
  induction t as [|a t IH]; [done|].
  change (String a (t ++ "") = String a t). by rewrite IH.
Qed.

Lemma contains_suffix pre t : contains (pre ++ t) t.
Proof. exists pre, "". by rewrite append_empty_r. Qed.

Lemma is_instance_spec c s :
  is_instance c s = true ↔
  ∃ ch ps p pr, heap s !! c = Some (mkObj ch ps (KContainer p pr)).
Proof.
  unfold is_instance. split.
  - destruct (heap s !! c) as [[ch ps []]|] eqn:E; simpl; try done.
    intros _. by eexists _, _, _, _.
  - intros (ch & ps & p & pr & ->). done.
Qed.

Lemma is_container_instance c s :
  is_container c s = true → is_instance c s = true.
Proof. unfold is_container. by intros [? _]%andb_prop. Qed.

Lemma is_container_spec c s :
  is_container c s = true →
  ∃ ch ps p pr, heap s !! c = Some (mkObj ch ps (KContainer p pr)).
Proof. by intros ?%is_container_instance%is_instance_spec. Qed.

(** What an assignment gives when it returns: the entry, or, under
    [__proto__], at most another prototype. *)
Lemma assign_ret h p pr t v p' pr' :
  assign h p pr t v = Ret (p', pr') →
  (p' = <[t := v]> p ∧ pr' = pr) ∨ (p' = p ∧ t = "__proto__").
Proof.
  unfold assign. destruct (p !! t); [intros [= <- <-]; by left|].
  destruct pr as [| |pv].
  - destruct (String.eqb_spec t "__proto__"); intros [= <- <-]; [by right|by left].
  - intros [= <- <-]; by left.
  - destruct (inherited_slot h pv t) as [[]|]; try discriminate;
      [intros [= <- <-]; by left|].
    destruct (String.eqb_spec t "__proto__"); intros [= <- <-]; [by right|by left].
Qed.

(** On a map that inherits nothing, an assignment under a key other than
    [__proto__] creates or overwrites the entry. *)
Lemma assign_plain h p pr t v :
  (∀ pv, pr ≠ ProtoOf pv) → t ≠ "__proto__" →
  assign h p pr t v = Ret (<[t := v]> p, pr).
Proof.
  intros Hpr Ht. unfold assign. destruct (p !! t); [done|].
  destruct pr as [| |pv]; [|done|by destruct (Hpr pv)].
  by destruct (String.eqb_spec t "__proto__").
Qed.

Lemma lookup_chain_ext (h h' : gmap loc obj) (ch : list loc) key :
  (∀ l, props <$> h' !! l = props <$> h !! l) →
  lookup_chain h' ch key = lookup_chain h ch key.
Proof.
  intros Hext. induction ch as [|p0 ch IH]; [done|]. simpl.
  specialize (Hext p0).
  destruct (h' !! p0) as [o'|], (h !! p0) as [o1|]; simpl in Hext;
    try discriminate; [|done].
  injection Hext as ->. by rewrite IH.
Qed.

(** The write [c._providers[t] = v] changes the Container [c] at most:
    every other object, every property of every object, the clock and the
    call log are as before, and [c] is still a Container. *)
Lemma set_provider_frame c t v s :
  let s' := (set_provider c t v s).2 in
  (∀ l, l ≠ c → heap s' !! l = heap s !! l) ∧
  (∀ l key, lookup_prop (heap s') l key = lookup_prop (heap s) l key) ∧
  dom (heap s') = dom (heap s) ∧
  (∀ c', is_container c' s' = is_container c' s) ∧
  clock s' = clock s ∧ calls s' = calls s ∧
  (∀ p, constructor_trap (heap s') p = constructor_trap (heap s) p).
Proof.
  unfold set_provider.
  destruct (heap s !! c) as [[ch ps k]|] eqn:Hc; [|done].
  destruct k as [| | |p pr]; try done.
  destruct (assign (heap s) p pr t v) as [[p' pr']|e]; [|done]. simpl.
  assert (∀ l', props <$> <[c := mkObj ch ps (KContainer p' pr')]> (heap s) !! l'
                = props <$> heap s !! l') as Hprops.
  { intros l'. destruct (decide (l' = c)) as [->|Hne].
    - by rewrite lookup_insert_eq, Hc.
    - by rewrite lookup_insert_ne. }
  assert (∀ l key, lookup_prop (<[c := mkObj ch ps (KContainer p' pr')]> (heap s)) l key
                   = lookup_prop (heap s) l key) as Hlook.
  { intros l key. unfold lookup_prop.
    destruct (decide (l = c)) as [->|Hne].
    + rewrite lookup_insert_eq, Hc. simpl.
      destruct (ps !! key); [done|]. by apply lookup_chain_ext.
    + rewrite lookup_insert_ne by done.
      destruct (heap s !! l) as [o|]; [|done].
      destruct (props o !! key); [done|]. by apply lookup_chain_ext. }
  repeat split; try done.
  - intros l Hl. by rewrite lookup_insert_ne.
  - apply dom_insert_lookup_L. by rewrite Hc.
  - intros c'. unfold is_container, is_instance, lacks. simpl.
    rewrite !Hlook. f_equal.
    destruct (decide (c' = c)) as [->|Hne].
    + by rewrite lookup_insert_eq, Hc.
    + by rewrite lookup_insert_ne.
  - intros p0. unfold constructor_trap.
    destruct (p0 !! "constructor") as [[| | | | | |f|]|]; try done.
    rewrite Hlook. destruct (decide (f = c)) as [->|Hne].
    + by rewrite lookup_insert_eq, Hc.
    + by rewrite lookup_insert_ne.
Qed.

Lemma providers_of_heap c s s' :
  heap s' !! c = heap s !! c → providers_of c s' = providers_of c s.
Proof. unfold providers_of. by intros ->. Qed.

Lemma proto_of_heap c s s' :
  heap s' !! c = heap s !! c → proto_of c s' = proto_of c s.
Proof. unfold proto_of. by intros ->. Qed.

(** The entries and the prototype that a write leaves. *)
Lemma set_provider_entries c t v s :
  let s' := (set_provider c t v s).2 in
  (providers_of c s' = providers_of c s ∨
   providers_of c s' = <[t := v]> (providers_of c s)) ∧
  (t ≠ "__proto__" → proto_of c s' = proto_of c s).
Proof.
  unfold set_provider, providers_of, proto_of.
  destruct (heap s !! c) as [[ch ps k]|] eqn:Hc; simpl; rewrite ?Hc; [|by split; [left|]].
  destruct k as [| | |p pr]; simpl; rewrite ?Hc; try (by split; [left|]).
  destruct (assign (heap s) p pr t v) as [[p' pr']|e] eqn:Ha; simpl;
    rewrite ?Hc; [|by split; [left|]].
  rewrite lookup_insert_eq.
  destruct (assign_ret _ _ _ _ _ _ _ Ha) as [[-> ->]|[-> ->]].
  - by split; [right|].
  - by split; [left|].
Qed.

(** On a Container whose map inherits nothing, the write under a key other
    than [__proto__] returns and makes the entry. *)
Lemma set_provider_ok c t v s :
  is_container c s = true →
  inherits_nothing c s = true →
  t ≠ "__proto__" →
  ∃ s', set_provider c t v s = (Ret tt, s') ∧
        providers_of c s' = <[t := v]> (providers_of c s) ∧
        proto_of c s' = proto_of c s.
Proof.
  intros (ch & ps & p & pr & Hc)%is_container_spec Hin Ht.
  unfold inherits_nothing, proto_of in Hin. rewrite Hc in Hin.
  unfold set_provider, providers_of, proto_of. rewrite Hc.
  rewrite assign_plain; [|by intros pv ->|done].
  eexists. split; [done|]. simpl. by rewrite lookup_insert_eq.
Qed.

(** On anything else the write is a TypeError and changes nothing. *)
Lemma set_provider_fail c t v s :
  is_instance c s = false →
  set_provider c t v s = (Throw TypeError, s).
Proof.
  unfold is_instance, set_provider.
  by destruct (heap s !! c) as [[ch ps []]|].
Qed.

(** Under [__proto__], on a map that still has [Object.prototype]: no
    entry is made, an object becomes the prototype. *)
Lemma set_provider_prototype c v s :
  is_container c s = true →
  first_prototype c s = true →
  providers_of c s !! "__proto__" = None →
  ∃ s', set_provider c "__proto__" v s = (Ret tt, s') ∧
        providers_of c s' = providers_of c s ∧
        proto_of c s' =
          (if is_object v then ProtoOf v
           else match v with VNull => ProtoNull | _ => ProtoObject end).
Proof.
  intros (ch & ps & p & pr & Hc)%is_container_spec Hfirst Hnone.
  unfold first_prototype, proto_of in Hfirst. rewrite Hc in Hfirst.
  destruct pr; try discriminate Hfirst.
  unfold providers_of in Hnone. rewrite Hc in Hnone.
  unfold set_provider, providers_of, proto_of, assign. rewrite Hc, Hnone. simpl.
  eexists. split; [done|]. simpl. by rewrite lookup_insert_eq.
Qed.

End Basics.

(** ** Construction and registration *)

Section Registration.

Implicit Types (s : state) (c l : loc) (t tok : string) (v : value)
  (target : LooseClass).

Lemma new_eq target s :
  new_ target s =
    match ctor target (allocated target s).1 (allocated target s).2 with
    | (Ret r, s1) =>
        (Ret (if is_object r then r else VObj (allocated target s).1), s1)
    | (Throw e, s1) => (Throw e, s1)
    end.
Proof.
  unfold new_, allocated, mbind, M_bind, bind, alloc, mret, M_ret, ret, get_state.
  simpl. by destruct (ctor target _ _) as [[r|e] s1].
Qed.

Lemma new_state target s :
  (new_ target s).2 = (ctor target (allocated target s).1 (allocated target s).2).2.
Proof.
  rewrite new_eq. by destruct (ctor target _ _) as [[r|e] s1].
Qed.

(** [reserve] is one construction, then one write to the exported
    container; the receiver plays no part. *)
Lemma reserve_eq c tok target s :
  Container.reserve c tok target s =
    match new_ target s with
    | (Ret v, s1) => set_provider container tok v s1
    | (Throw e, s1) => (Throw e, s1)
    end.
Proof. done. Qed.

(** What [new] returns is an object. *)
Lemma new_returns target s v s1 :
  new_ target s = (Ret v, s1) →
  is_object v = true ∧
  ∃ r, ctor target (allocated target s).1 (allocated target s).2 = (Ret r, s1) ∧
       v = (if is_object r then r else VObj (allocated target s).1).
Proof.
  rewrite new_eq.
  destruct (ctor target _ _) as [[r|e] s1'] eqn:E; intros [= <- <-].
  split; [by destruct (is_object r) eqn:Hr|]. by exists r.
Qed.

Lemma set_provider_absent c c' t tok v s :
  (c' = c → tok ≠ t) →
  providers_of c s !! t = None →
  providers_of c (set_provider c' tok v s).2 !! t = None.
Proof.
  intros Hne Habs.
  destruct (decide (c' = c)) as [->|Hcc].
  - destruct (set_provider_entries c tok v s) as [[->| ->] _]; [done|].
    rewrite lookup_insert_ne; [done|]. by apply Hne.
  - destruct (set_provider_frame c' tok v s) as (Hfr & _).
    by rewrite (providers_of_heap c s) by (apply Hfr; done).
Qed.

Lemma set_provider_keeps_prototype c c' tok v s :
  (c' = c → tok ≠ "__proto__") →
  proto_of c (set_provider c' tok v s).2 = proto_of c s.
Proof.
  intros Hne.
  destruct (decide (c' = c)) as [->|Hcc].
  - by apply set_provider_entries, Hne.
  - destruct (set_provider_frame c' tok v s) as (Hfr & _).
    by rewrite (proto_of_heap c s) by (apply Hfr; done).
Qed.

Lemma allocated_heap_this target s :
  heap (allocated target s).2 !! (allocated target s).1 =
    Some (plain (proto_chain (heap s) (prototype target)) ∅) ∧
  heap s !! (allocated target s).1 = None.
Proof.
  unfold allocated. simpl. rewrite lookup_insert_eq.
  split; [done|]. apply not_elem_of_dom, is_fresh.
Qed.

Lemma allocated_providers target c s :
  providers_of c (allocated target s).2 = providers_of c s.
Proof.
  destruct (allocated_heap_this target s) as [Hthis Hnone].
  unfold providers_of.
  destruct (decide ((allocated target s).1 = c)) as [<-|Hne].
  - by rewrite Hthis, Hnone.
  - unfold allocated in *. simpl in *. by rewrite lookup_insert_ne.
Qed.

Lemma allocated_proto target c s :
  proto_of c (allocated target s).2 = proto_of c s.
Proof.
  destruct (allocated_heap_this target s) as [Hthis Hnone].
  unfold proto_of.
  destruct (decide ((allocated target s).1 = c)) as [<-|Hne].
  - by rewrite Hthis, Hnone.
  - unfold allocated in *. simpl in *. by rewrite lookup_insert_ne.
Qed.

Lemma allocated_absent target c t s :
  providers_of c s !! t = None →
  providers_of c (allocated target s).2 !! t = None.
Proof. by rewrite allocated_providers. Qed.

Lemma perform_absent c t a s :
  leaves_absent c t a →
  providers_of c s !! t = None →
  providers_of c (perform a s).2 !! t = None.
Proof.
  destruct a as [c' [v tok]|c' tok target]; simpl.
  - intros Hne Habs. by apply set_provider_absent.
  - intros [Hne Hctor] Habs. rewrite reserve_eq.
    pose proof (new_state target s) as Hs.
    assert (providers_of c (new_ target s).2 !! t = None) as Hnew.
    { rewrite Hs. apply Hctor. by apply allocated_absent. }
    destruct (new_ target s) as [[v|e] s1]; simpl in *; [|done].
    apply set_provider_absent; [|done]. intros Heq. by apply Hne.
Qed.

Lemma perform_all_absent c t history s :
  Forall (leaves_absent c t) history →
  providers_of c s !! t = None →
  providers_of c (perform_all history s) !! t = None.
Proof.
  intros Hall. revert s.
  induction Hall as [|a history Ha _ IH]; intros s Habs; simpl; [done|].
  apply IH. by apply perform_absent.
Qed.

Lemma perform_keeps_prototype c a s :
  keeps_prototype c a →
  proto_of c (perform a s).2 = proto_of c s.
Proof.
  destruct a as [c' [v tok]|c' tok target]; simpl.
  - intros Hne. by apply set_provider_keeps_prototype.
  - intros [Hne Hctor]. rewrite reserve_eq.
    pose proof (new_state target s) as Hs.
    assert (proto_of c (new_ target s).2 = proto_of c s) as Hnew.
    { by rewrite Hs, Hctor, allocated_proto. }
    destruct (new_ target s) as [[v|e] s1]; simpl in *; [|done].
    rewrite set_provider_keeps_prototype; [done|]. intros Heq. by apply Hne.
Qed.

Lemma perform_all_keeps_prototype c history s :
  Forall (keeps_prototype c) history →
  proto_of c (perform_all history s) = proto_of c s.
Proof.
  intros Hall. revert s.
  induction Hall as [|a history Ha _ IH]; intros s; simpl; [done|].
  by rewrite IH, perform_keeps_prototype.
Qed.

Lemma fresh_state_container now :
  is_container container (fresh_state now) = true ∧
  providers_of container (fresh_state now) = ∅ ∧
  proto_of container (fresh_state now) = ProtoObject.
Proof. done. Qed.

Lemma fresh_state_absent now c t :
  providers_of c (fresh_state now) !! t = None.
Proof.
  unfold providers_of, fresh_state, new_Container, alloc. simpl.
  destruct (decide (fresh (dom (∅ : gmap loc obj)) = c)) as [<-|Hne].
  - by rewrite lookup_insert_eq.
  - by rewrite lookup_insert_ne.
Qed.

Lemma fresh_state_proto now c : proto_of c (fresh_state now) = ProtoObject.
Proof.
  unfold proto_of, fresh_state, new_Container, alloc. simpl.
  destruct (decide (fresh (dom (∅ : gmap loc obj)) = c)) as [<-|Hne].
  - by rewrite lookup_insert_eq.
  - by rewrite lookup_insert_ne.
Qed.

End Registration.

(** ** Resolution *)

Section Resolution.

Implicit Types (s : state) (c : loc) (t : string) (v : value).

Lemma resolve_absent c t s :
  inherits_nothing c s = true →
  constructor_trap (heap s) (providers_of c s) = false →
  providers_of c s !! t = None →
  Container.resolve c t s = (Throw (Error ("No provider found for " ++ t)), s).
Proof.
  intros Hin Htrap H.
  destruct (array_like (providers_of c s)) eqn:Harr.
  - by apply resolve_array_like.
  - rewrite resolve_eq, H; try done. by apply keyed_spec.
Qed.

Lemma resolve_present c t v s :
  inherits_nothing c s = true →
  keyed (heap s) (providers_of c s) = true →
  providers_of c s !! t = Some v →
  Container.resolve c t s =
    (if truthy v then Ret v else Throw (Error ("No provider found for " ++ t)), s).
Proof.
  intros Hin Hk H. rewrite resolve_eq, H by done. by destruct (truthy v).
Qed.

Lemma resolve_falsy c t v s :
  inherits_nothing c s = true →
  constructor_trap (heap s) (providers_of c s) = false →
  providers_of c s !! t = Some v →
  truthy v = false →
  Container.resolve c t s = (Throw (Error ("No provider found for " ++ t)), s).
Proof.
  intros Hin Htrap H Hv.
  destruct (array_like (providers_of c s)) eqn:Harr.
  - by apply resolve_array_like.
  - rewrite resolve_eq, H, Hv; try done. by apply keyed_spec.
Qed.

Lemma keyed_heap (h h' : gmap loc obj) (p : gmap string value) :
  (∀ q, constructor_trap h' q = constructor_trap h q) →
  keyed h' p = keyed h p.
Proof. intros H. unfold keyed. by rewrite H. Qed.

(** A write to a Container leaves every dictionary iterated as before. *)
Lemma set_provider_keyed c t v s (p : gmap string value) :
  keyed (heap (set_provider c t v s).2) p = keyed (heap s) p.
Proof.
  apply keyed_heap.
  by destruct (set_provider_frame c t v s) as (_ & _ & _ & _ & _ & _ & H).
Qed.

Lemma is_object_truthy v : is_object v = true → truthy v = true.
Proof. by destruct v. Qed.


(** An override on a map that inherits nothing, under a key other than
    [__proto__]. *)
Lemma provider_ok c t v s :
  is_container c s = true →
  inherits_nothing c s = true →
  t ≠ "__proto__" →
  ∃ s', Container.provider c (mkProvider v t) s = (Ret tt, s') ∧
        providers_of c s' = <[t := v]> (providers_of c s) ∧
        inherits_nothing c s' = true.
Proof.
  intros Hc Hin Ht.
  destruct (set_provider_ok c t v s Hc Hin Ht) as (s' & Hs & Hp & Hpr).
  exists s'. split; [done|]. split; [done|].
  unfold inherits_nothing in *. by rewrite Hpr.
Qed.

(** A write that returns, under a key other than [__proto__], has made the
    entry and kept the prototype. *)
Lemma set_provider_ret c t v s s' :
  set_provider c t v s = (Ret tt, s') →
  t ≠ "__proto__" →
  providers_of c s' = <[t := v]> (providers_of c s) ∧
  proto_of c s' = proto_of c s ∧
  is_instance c s = true.
Proof.
  intros Hs Ht. unfold set_provider in Hs. unfold providers_of, proto_of, is_instance.
  destruct (heap s !! c) as [[ch ps []]|] eqn:Hc; try discriminate Hs.
  destruct (assign _ _ _ _ _) as [[p' pr']|e] eqn:Ha; [|discriminate Hs].
  injection Hs as <-. simpl. rewrite lookup_insert_eq.
  by destruct (assign_ret _ _ _ _ _ _ _ Ha) as [[-> ->]|[_ ?]].
Qed.

End Resolution.

(** C1, as amended.  For every Container instance [c] with the field and
    the methods of its class, whose provider map inherits nothing (its prototype is [Object.prototype] or [null]), every
    token [t] other than [__proto__] and every truthy value [v], the map
    after the write being iterated by its keys (no own [length] that is an
    array length, no own [constructor] that is a function whose [prototype]
    is an accessor):
    [c.provider({token: t, userValue: v})] returns normally, and
    [c.resolve(t)] then returns [v] itself (the same value, an object by its
    identity), whatever [c] held for [t] before. *)
Theorem override_then_resolve (s : state) (c : loc) (t : string) (v : value) :
  is_container c s = true →
  inherits_nothing c s = true →
  t ≠ "__proto__" →
  keyed (heap s) (<[t := v]> (providers_of c s)) = true →
  truthy v = true →
  ∃ s', Container.provider c (mkProvider v t) s = (Ret tt, s') ∧
        Container.resolve c t s' = (Ret v, s').
Proof.
  intros Hc Hin Ht Hk Hv.
  destruct (provider_ok c t v s Hc Hin Ht) as (s' & Hs & Hp & Hin').
  exists s'. split; [done|].
  rewrite (resolve_present c t v s'), Hv; try done.
  - rewrite Hp. replace s' with (Container.provider c (mkProvider v t) s).2
      by (by rewrite Hs).
    by rewrite (set_provider_keyed c t v s).
  - by rewrite Hp, lookup_insert_eq.
Qed.

(** An override of an entry that exists, read back. *)
Lemma override_then_resolve_witness :
  let s := (Container.provider container (mkProvider (VNum 7) "a") (fresh_state 0)).2 in
  (is_container container s = true ∧ inherits_nothing container s = true ∧
   "a" ≠ "__proto__" ∧
   keyed (heap s) (<["a" := VStr "x"]> (providers_of container s)) = true ∧
   truthy (VStr "x") = true) ∧
  ∃ s', Container.provider container (mkProvider (VStr "x") "a") s = (Ret tt, s') ∧
        Container.resolve container "a" s' = (Ret (VStr "x"), s').
Proof.
  intros s. assert ("a" ≠ "__proto__") as Hne by discriminate.
  split; [repeat split; try reflexivity; exact Hne|].
  apply override_then_resolve; try reflexivity. exact Hne.
Defined.

(** C1 fails as stated: after [provider({token: 'a', userValue: 0})] on the
    fresh container, [resolve('a')] throws instead of returning [0]. *)
Lemma override_falsy_counterexample :
  ∃ s', Container.provider container (mkProvider (VNum 0) "a") (fresh_state 0) = (Ret tt, s') ∧
        Container.resolve container "a" s' =
          (Throw (Error "No provider found for a"), s').
Proof. eexists. split; [reflexivity|]. vm_compute. reflexivity. Qed.

Lemma define_getter_kind (target : loc) (key tok : string) (c : loc) (s : state) :
  providers_of c (define_getter target key tok s).2 = providers_of c s ∧
  proto_of c (define_getter target key tok s).2 = proto_of c s.
Proof.
  unfold define_getter, providers_of, proto_of.
  destruct (heap s !! target) as [o|] eqn:Ho; [|done]. simpl.
  destruct (decide (c = target)) as [->|Hne].
  - rewrite lookup_insert_eq, Ho. by destruct o as [? ? []].
  - by rewrite lookup_insert_ne.
Qed.

(** C2, as amended.  A token that no call has registered or overridden in a
    container cannot be resolved there, as long as no call has assigned
    under [__proto__] or under [constructor] in it and the container has
    the field and the methods of its class: [resolve] throws an
    Error whose message, "No provider found for" followed by the token,
    contains the token.  The history is any sequence of [provider] and
    [reserve] calls from the fresh container; the empty history is the
    container with no registrations. *)
Theorem resolve_unregistered (now : Z) (history : list action) (c : loc) (t : string) :
  Forall (leaves_absent c t) history →
  Forall (keeps_prototype c) history →
  Forall (leaves_absent c "constructor") history →
  is_container c (perform_all history (fresh_state now)) = true →
  let s := perform_all history (fresh_state now) in
  Container.resolve c t s = (Throw (Error ("No provider found for " ++ t)), s) ∧
  contains ("No provider found for " ++ t) t.
Proof.
  intros Hall Hproto Hctor _ s. split; [|apply contains_suffix].
  apply resolve_absent.
  - unfold inherits_nothing, s.
    by rewrite perform_all_keeps_prototype, fresh_state_proto.
  - apply constructor_trap_absent, perform_all_absent; [done|].
    apply fresh_state_absent.
  - apply perform_all_absent; [done|]. apply fresh_state_absent.
Qed.

(** [resolve('nonexistent')] on the container with no registrations. *)
Lemma resolve_unregistered_witness :
  (Forall (leaves_absent container "nonexistent") [] ∧
   Forall (keeps_prototype container) [] ∧
   Forall (leaves_absent container "constructor") [] ∧
   is_container container (perform_all [] (fresh_state 0)) = true) ∧
  Container.resolve container "nonexistent" (fresh_state 0) =
    (Throw (Error "No provider found for nonexistent"), fresh_state 0) ∧
  contains "No provider found for nonexistent" "nonexistent".
Proof.
  split; [repeat split; constructor|].
  apply (resolve_unregistered 0 [] container "nonexistent");
    constructor || reflexivity.
Defined.

(** C2 fails as stated: a class whose constructor decorates its instance
    with [Inject('x')] on [length] is registered under 'a', and the
    instance is then given as [__proto__].  The token 'nonexistent' has been
    neither registered nor overridden, and [resolve('nonexistent')] throws a
    RangeError: [find] reads [length], whose getter calls [resolve], which
    reads [length] again, without end. *)
Lemma resolve_unregistered_counterexample :
  let decorated := mkClass 9%positive
    (λ this, Inject "x" this "length";; mret VUndefined) in
  let history := [Register container "a" decorated;
                  Override container (mkProvider (VObj 2%positive) "__proto__")] in
  let s := perform_all history (fresh_state 0) in
  Forall (leaves_absent container "nonexistent") history ∧
  providers_of container s !! "nonexistent" = None ∧
  Container.resolve container "nonexistent" s = (Throw RangeError, s).
Proof.
  intros decorated history s. split; [|split; vm_compute; reflexivity].
  repeat constructor; try discriminate.
  intros this s0 Habs. unfold decorated. simpl.
  unfold mbind, M_bind, bind, Inject.
  pose proof (define_getter_kind this "length" "x" container s0) as [Hp _].
  destruct (define_getter this "length" "x" s0) as [[[]|e] s1]; simpl in *;
    by rewrite Hp.
Qed.

(** C9, as amended.  [resolve] decides by the truthiness of what [find]
    gives, not by the presence of the key.  On a Container with the field
    and the methods of its class, whose provider map inherits nothing and
    has no own [constructor] that is a function whose [prototype] is an
    accessor, a token whose entry is falsy throws "No
    provider found" although the entry exists; and when the map has no own
    [length] that is an array length, [resolve] returns normally exactly
    when the token has an entry whose value is truthy, which it returns. *)
Theorem resolve_truthiness (s : state) (c : loc) (t : string) :
  is_container c s = true →
  inherits_nothing c s = true →
  constructor_trap (heap s) (providers_of c s) = false →
  (∀ v, providers_of c s !! t = Some v → truthy v = false →
        Container.resolve c t s =
          (Throw (Error ("No provider found for " ++ t)), s)) ∧
  (array_like (providers_of c s) = false →
   ∀ r, (Container.resolve c t s).1 = Ret r ↔
        providers_of c s !! t = Some r ∧ truthy r = true).
Proof.
  intros _ Hin Htrap. split.
  - intros v Hv Hf. by apply resolve_falsy with v.
  - intros Harr r. rewrite resolve_eq by (done || by apply keyed_spec). simpl.
    destruct (providers_of c s !! t) as [v|].
    + destruct (truthy v) eqn:Hv;
        (split; [intros [= <-]; try done|intros [[= <-] Ht]; congruence]).
    + split; [done|]. by intros [? _].
Qed.

(** The token 'zero' holding [0] and the token 'one' holding [1]. *)
Lemma resolve_truthiness_witness :
  let s := (Container.provider container (mkProvider (VNum 1) "one")
              (Container.provider container (mkProvider (VNum 0) "zero")
                 (fresh_state 0)).2).2 in
  (is_container container s = true ∧
   inherits_nothing container s = true ∧
   constructor_trap (heap s) (providers_of container s) = false) ∧
  Container.resolve container "zero" s =
    (Throw (Error "No provider found for zero"), s) ∧
  (Container.resolve container "one" s).1 = Ret (VNum 1).
Proof.
  intros s.
  destruct (resolve_truthiness s container "zero" eq_refl eq_refl eq_refl)
    as [Hfalsy _].
  destruct (resolve_truthiness s container "one" eq_refl eq_refl eq_refl)
    as [_ Hiff].
  split; [repeat split; reflexivity|]. split.
  - apply (Hfalsy (VNum 0)); reflexivity.
  - apply (Hiff eq_refl (VNum 1)). split; reflexivity.
Defined.

(** C9 fails as stated: the token 'length' holds the truthy [3], and
    [resolve('length')] throws, lodash taking the map for an array of
    length 3; so does [resolve] of the token 'b', which holds 'x'. *)
Lemma resolve_truthiness_counterexample :
  let s := (Container.provider container (mkProvider (VNum 3) "length")
              (Container.provider container (mkProvider (VStr "x") "b")
                 (fresh_state 0)).2).2 in
  providers_of container s !! "length" = Some (VNum 3) ∧
  truthy (VNum 3) = true ∧
  Container.resolve container "length" s =
    (Throw (Error "No provider found for length"), s) ∧
  providers_of container s !! "b" = Some (VStr "x") ∧
  Container.resolve container "b" s =
    (Throw (Error "No provider found for b"), s).
Proof. repeat split; vm_compute; reflexivity. Qed.

(** ** Registration *)





Lemma assign_returns (h : gmap loc obj) (p : gmap string value) (pr : proto_ref)
    (t : string) (v : value) :
  (∀ pv, pr ≠ ProtoOf pv) → ∃ r, assign h p pr t v = Ret r.
Proof.
  intros Hpr. unfold assign. destruct (p !! t); [by eexists|].
  destruct pr as [| |pv]; [|by eexists|by destruct (Hpr pv)].
  destruct (String.eqb t "__proto__"); by eexists.
Qed.

(** C8, as amended.  The exported container having the field and the
    methods of its class: [reserve] returns normally when the constructor
    does, the exported container then being as its class made it, with a
    provider map that inherits nothing; and when the constructor throws,
    [reserve] throws the very same thing at once and ends in the state the
    constructor left: nothing is written to the container. *)
Theorem reserve_errors (s : state) (c : loc) (t : string) (target : LooseClass) :
  is_container container s = true →
  let this := (allocated target s).1 in
  let s0 := (allocated target s).2 in
  (∀ r s1, ctor target this s0 = (Ret r, s1) →
           is_container container s1 = true →
           inherits_nothing container s1 = true →
           ∃ s', Container.reserve c t target s = (Ret tt, s')) ∧
  (∀ e s1, ctor target this s0 = (Throw e, s1) →
           Container.reserve c t target s = (Throw e, s1)).
Proof.
  intros _ this s0. split.
  - intros r s1 Hctor Hc Hin. rewrite reserve_eq, new_eq.
    fold this s0. rewrite Hctor.
    apply is_container_spec in Hc as (ch & ps & p & pr & Hc).
    unfold inherits_nothing, proto_of in Hin. rewrite Hc in Hin.
    unfold set_provider. rewrite Hc.
    destruct (assign_returns (heap s1) p pr t
                (if is_object r then r else VObj this)) as [[p' pr'] ->].
    { by intros pv ->. }
    by eexists.
  - intros e s1 Hctor. rewrite reserve_eq, new_eq.
    fold this s0. by rewrite Hctor.
Qed.

(** A class whose constructor returns, and one whose constructor throws the
    string 'boom' after overriding token 'a'. *)
Lemma reserve_errors_witness :
  let s := fresh_state 0 in
  let good := TimeService 7%positive in
  let bad := mkClass 7%positive (λ _,
    Container.provider container (mkProvider (VNum 1) "a");; throw (Thrown (VStr "boom"))) in
  is_container container s = true ∧
  (∃ s', Container.reserve container "t" good s = (Ret tt, s')) ∧
  ∃ s1, Container.reserve container "t" bad s = (Throw (Thrown (VStr "boom")), s1) ∧
        providers_of container s1 !! "t" = None ∧
        providers_of container s1 !! "a" = Some (VNum 1).
Proof.
  intros s good bad. split; [reflexivity|]. split.
  - apply (proj1 (reserve_errors s container "t" good eq_refl)
             VUndefined (allocated good s).2); reflexivity.
  - eexists. split.
    + apply (proj2 (reserve_errors s container "t" bad eq_refl)). reflexivity.
    + split; reflexivity.
Defined.

(** C8 fails as stated: an object with an [Inject('x')] accessor under
    'svc' has been given as [__proto__]; the constructor of [TimeService]
    returns, the exported container is as its class made it, and
    [reserve('svc', TimeService)] throws a TypeError, the assignment being refused by the
    inherited accessor, which has no setter. *)
Lemma reserve_errors_counterexample :
  let s := ((o ← alloc (plain [] ∅); Inject "x" o "svc";;
             Container.provider container (mkProvider (VObj o) "__proto__"))
            (fresh_state 0)).2 in
  let target := TimeService 7%positive in
  is_container container s = true ∧
  ctor target (allocated target s).1 (allocated target s).2 =
    (Ret VUndefined, (allocated target s).2) ∧
  is_container container (allocated target s).2 = true ∧
  Container.reserve container "svc" target s =
    (Throw TypeError, (allocated target s).2).
Proof. repeat split; vm_compute; reflexivity. Qed.

(** ** One entry per token, one instance per registration *)

Section Instances.

Implicit Types (s : state) (c l : loc) (t : string) (v : value)
  (target : LooseClass).

Lemma filter_key_absent (kvs : list (string * value)) t :
  t ∉ kvs.*1 → filter (λ kv, kv.1 = t) kvs = [].
Proof.
  induction kvs as [|[k v] kvs IH]; intros Hnot; [done|].
  rewrite fmap_cons, not_elem_of_cons in Hnot. destruct Hnot as [Hk Hrest].
  simpl in Hk. rewrite filter_cons_False by (simpl; congruence). by apply IH.
Qed.

Lemma filter_key_nodup (kvs : list (string * value)) t :
  NoDup kvs.*1 → (length (filter (λ kv, kv.1 = t) kvs) ≤ 1)%nat.
Proof.
  induction kvs as [|[k v] kvs IH]; intros Hnd; [simpl; lia|].
  rewrite fmap_cons, NoDup_cons in Hnd. destruct Hnd as [Hk Hnd].
  destruct (decide (k = t)) as [->|Hne].
  - rewrite filter_cons_True by done.
    rewrite filter_key_absent by done. simpl. lia.
  - rewrite filter_cons_False by done. by apply IH.
Qed.

Lemma entries_at_most_one c s t : (length (entries c s t) ≤ 1)%nat.
Proof. apply filter_key_nodup, NoDup_fst_map_to_list. Qed.

Lemma allocated_fresh target s :
  ((allocated target s).1 ∉ dom (heap s)) ∧
  dom (heap (allocated target s).2) = {[(allocated target s).1]} ∪ dom (heap s).
Proof.
  unfold allocated. simpl. split; [apply is_fresh|]. by rewrite dom_insert_L.
Qed.


Lemma reserve_returns c t target s s' :
  Container.reserve c t target s = (Ret tt, s') →
  ∃ v s1, new_ target s = (Ret v, s1) ∧
          set_provider container t v s1 = (Ret tt, s').
Proof.
  rewrite reserve_eq. destruct (new_ target s) as [[v|e] s1]; [|done].
  intros Hset. by exists v, s1.
Qed.

End Instances.

(** C4, as amended.  Two registrations under one token other than
    [__proto__], one after the other, the exported container having the
    field and the methods of its class before and after the second, its
    provider map then inheriting nothing and being iterated by its keys (no own
    [length] that is an array length, no own [constructor] that is a
    function whose [prototype] is an accessor): the map holds the instance
    of the second class under the token and [resolve] returns it; and in
    every state a container has at most one entry for a token. *)
Theorem last_registration_wins (s : state) (c1 c2 : loc) (t : string)
    (A B : LooseClass) (s1 s2 : state) :
  t ≠ "__proto__" →
  Container.reserve c1 t A s = (Ret tt, s1) →
  is_container container s1 = true →
  Container.reserve c2 t B s1 = (Ret tt, s2) →
  is_container container s2 = true →
  inherits_nothing container s2 = true →
  keyed (heap s2) (providers_of container s2) = true →
  (∃ b, (new_ B s1).1 = Ret b ∧
        providers_of container s2 !! t = Some b ∧
        Container.resolve container t s2 = (Ret b, s2)) ∧
  (∀ s' c t', (length (entries c s' t') ≤ 1)%nat).
Proof.
  intros Ht _ _ HB _ Hin Harr. split; [|intros; apply entries_at_most_one].
  apply reserve_returns in HB as (b & sb & HnewB & HsetB).
  destruct (new_returns B s1 b sb HnewB) as [Hobj _].
  destruct (set_provider_ret container t b sb s2 HsetB Ht) as (Hp & _).
  assert (providers_of container s2 !! t = Some b) as Hl.
  { by rewrite Hp, lookup_insert_eq. }
  exists b. rewrite HnewB. split; [done|]. split; [done|].
  by rewrite (resolve_present _ _ _ _ Hin Harr Hl), is_object_truthy.
Qed.

(** [TimeService], then a second class, registered under 'timeService' in
    the fresh container. *)
Lemma last_registration_wins_witness :
  let A := TimeService 7%positive in
  let B := mkClass 8%positive (λ this, set_prop this "x" (VNum 1);; mret VUndefined) in
  let s := fresh_state 0 in
  let s1 := (Container.reserve container "timeService" A s).2 in
  let s2 := (Container.reserve container "timeService" B s1).2 in
  ("timeService" ≠ "__proto__" ∧
   is_container container s1 = true ∧
   is_container container s2 = true ∧
   inherits_nothing container s2 = true ∧
   keyed (heap s2) (providers_of container s2) = true) ∧
  (∃ b, (new_ B s1).1 = Ret b ∧
        providers_of container s2 !! "timeService" = Some b ∧
        Container.resolve container "timeService" s2 = (Ret b, s2)) ∧
  (∀ s' c t', (length (entries c s' t') ≤ 1)%nat).
Proof.
  intros A B s s1 s2.
  assert ("timeService" ≠ "__proto__") as Ht by discriminate.
  split; [split; [exact Ht|repeat split; reflexivity]|].
  apply (last_registration_wins s container container "timeService" A B s1 s2);
    [exact Ht|reflexivity..].
Defined.

(** C4 fails as stated: two classes registered under [__proto__] leave no
    entry under the token, and [resolve('__proto__')] throws. *)
Lemma last_registration_wins_counterexample :
  let A := TimeService 7%positive in
  let B := TimeService 8%positive in
  let s := fresh_state 0 in
  let s1 := (Container.reserve container "__proto__" A s).2 in
  let s2 := (Container.reserve container "__proto__" B s1).2 in
  Container.reserve container "__proto__" A s = (Ret tt, s1) ∧
  Container.reserve container "__proto__" B s1 = (Ret tt, s2) ∧
  providers_of container s2 !! "__proto__" = None ∧
  Container.resolve container "__proto__" s2 =
    (Throw (Error "No provider found for __proto__"), s2).
Proof. repeat split; vm_compute; reflexivity. Qed.




(** ** Injected properties *)

Section Injected.

Implicit Types (s : state) (c l o : loc) (t tok key : string) (v : value).

(** Reading an injected property is [container.resolve(tok)]. *)
Lemma get_injected s o key tok :
  injected s o key tok →
  get_prop (VObj o) key s = Container.resolve container tok s.
Proof.
  unfold injected, get_prop, mbind, M_bind, bind, get_state. simpl.
  by intros ->.
Qed.

Lemma reads_S n o key s :
  reads (S n) o key s =
    match get_prop (VObj o) key s with
    | (Ret v, s1) =>
        match reads n o key s1 with
        | (Ret vs, s2) => (Ret (v :: vs), s2)
        | (Throw e, s2) => (Throw e, s2)
        end
    | (Throw e, s1) => (Throw e, s1)
    end.
Proof. done. Qed.

Lemma reads_ret n o key v s :
  get_prop (VObj o) key s = (Ret v, s) →
  reads n o key s = (Ret (replicate n v), s).
Proof.
  intros Hget. induction n as [|n IH]; [done|].
  by rewrite reads_S, Hget, IH.
Qed.

Lemma reads_throw n o key e s :
  get_prop (VObj o) key s = (Throw e, s) →
  reads (S n) o key s = (Throw e, s).
Proof. intros Hget. by rewrite reads_S, Hget. Qed.

(** Writing a provider changes no property of any object. *)
Lemma set_provider_props c t v s s' :
  set_provider c t v s = (Ret tt, s') →
  ∀ l key, lookup_prop (heap s') l key = lookup_prop (heap s) l key.
Proof.
  intros Hs. destruct (set_provider_frame c t v s) as (_ & Hprops & _).
  by rewrite Hs in Hprops.
Qed.

End Injected.

(** C5, as amended.  Once the exported container, with the field and the
    methods of its class, its provider map inheriting nothing, has [t] (not [__proto__]) overridden with a truthy
    value [v], the map then being iterated by its keys (no own [length] that
    is an array length, no own [constructor] that is a function whose
    [prototype] is an accessor), every read of a property decorated with [Inject(t)] returns [v]: any
    number of reads in a row, each a fresh lookup, none giving what was
    stored before. *)
Theorem inject_reflects_override (s : state) (t : string) (v : value)
    (o : loc) (key : string) (n : nat) :
  is_container container s = true →
  inherits_nothing container s = true →
  t ≠ "__proto__" →
  keyed (heap s) (<[t := v]> (providers_of container s)) = true →
  truthy v = true →
  injected s o key t →
  ∃ s', Container.provider container (mkProvider v t) s = (Ret tt, s') ∧
        reads n o key s' = (Ret (replicate n v), s').
Proof.
  intros Hc Hin Ht Harr Hv Hinj.
  destruct (provider_ok container t v s Hc Hin Ht) as (s' & Hs & Hp & Hin').
  exists s'. split; [done|]. apply reads_ret.
  rewrite (get_injected s' o key t).
  - rewrite (resolve_present container t v s'), Hv; try done.
    + rewrite Hp.
      replace s' with (Container.provider container (mkProvider v t) s).2
        by (by rewrite Hs).
      by rewrite (set_provider_keyed container t v s).
    + by rewrite Hp, lookup_insert_eq.
  - unfold injected. by rewrite (set_provider_props _ _ _ _ _ Hs).
Qed.

(** An object whose property 'dep' is decorated [Inject('dep')], the token
    holding 'old': after the override with 'new', three reads give 'new'. *)
Lemma inject_reflects_override_witness :
  let s := ((o ← alloc (plain [] ∅); Inject "dep" o "dep";;
             Container.provider container (mkProvider (VStr "old") "dep"))
            (fresh_state 0)).2 in
  let o := 2%positive in
  (is_container container s = true ∧ inherits_nothing container s = true ∧
   "dep" ≠ "__proto__" ∧
   keyed (heap s) (<["dep" := VStr "new"]> (providers_of container s)) = true ∧
   truthy (VStr "new") = true ∧
   injected s o "dep" "dep") ∧
  ∃ s', Container.provider container (mkProvider (VStr "new") "dep") s = (Ret tt, s') ∧
        reads 3 o "dep" s' = (Ret (replicate 3 (VStr "new")), s').
Proof.
  intros s o. assert ("dep" ≠ "__proto__") as Ht by discriminate.
  split; [repeat split; try reflexivity; exact Ht|].
  apply inject_reflects_override; try reflexivity. exact Ht.
Defined.

(** C5 fails as stated: after the override of 'dep' with [false], reading a
    property decorated [Inject('dep')] throws; it does not return [false]. *)
Lemma inject_override_falsy_counterexample :
  let s := ((o ← alloc (plain [] ∅); Inject "dep" o "dep") (fresh_state 0)).2 in
  let o := 2%positive in
  injected s o "dep" "dep" ∧
  ∃ s', Container.provider container (mkProvider (VBool false) "dep") s = (Ret tt, s') ∧
        get_prop (VObj o) "dep" s' = (Throw (Error "No provider found for dep"), s').
Proof.
  split; [reflexivity|]. eexists. split; [reflexivity|]. vm_compute. reflexivity.
Qed.

(** C6, as amended.  While the exported container, with the field and the
    methods of its class, its provider map inheriting nothing and being iterated by its keys (no own [length] that
    is an array length, no own [constructor] that is a function whose
    [prototype] is an accessor), holds a truthy value [v] under [t], any number of reads in a row of a
    property decorated with [Inject(t)] all return [v] itself, and leave the
    state as it was. *)
Theorem inject_reads_idempotent (s : state) (t : string) (v : value)
    (o : loc) (key : string) (n : nat) :
  is_container container s = true →
  inherits_nothing container s = true →
  keyed (heap s) (providers_of container s) = true →
  injected s o key t →
  providers_of container s !! t = Some v →
  truthy v = true →
  reads n o key s = (Ret (replicate n v), s).
Proof.
  intros _ Hin Harr Hinj Hp Hv. apply reads_ret.
  by rewrite (get_injected s o key t Hinj),
    (resolve_present _ _ _ _ Hin Harr Hp), Hv.
Qed.

(** A [TimeService] instance injected into property 'timeService': four
    reads give the one stored object. *)
Lemma inject_reads_idempotent_witness :
  let s := ((o ← alloc (plain [] ∅); Inject "timeService" o "timeService";;
             Injectable "timeService" (TimeService 7%positive))
            (fresh_state 0)).2 in
  let o := 2%positive in
  (is_container container s = true ∧
   inherits_nothing container s = true ∧
   keyed (heap s) (providers_of container s) = true ∧
   injected s o "timeService" "timeService" ∧
   providers_of container s !! "timeService" = Some (VObj 3%positive) ∧
   truthy (VObj 3%positive) = true) ∧
  reads 4 o "timeService" s = (Ret (replicate 4 (VObj 3%positive)), s).
Proof.
  split; [repeat split; reflexivity|].
  apply (inject_reads_idempotent _ "timeService"); reflexivity.
Defined.

(** C6 fails as stated: the token has an entry, the number [0], and reads
    of the property decorated with it throw instead of returning a value. *)
Lemma inject_reads_falsy_counterexample :
  let s := ((o ← alloc (plain [] ∅); Inject "dep" o "dep";;
             Container.provider container (mkProvider (VNum 0) "dep"))
            (fresh_state 0)).2 in
  let o := 2%positive in
  injected s o "dep" "dep" ∧
  providers_of container s !! "dep" = Some (VNum 0) ∧
  reads 2 o "dep" s = (Throw (Error "No provider found for dep"), s).
Proof. repeat split; vm_compute; reflexivity. Qed.

(** ** Property reads, calls and writes, by cases *)

Section Platform.

Implicit Types (s : state) (h : gmap loc obj) (l this d f : loc)
  (key : string) (v x : value).

Lemma get_prop_data l key x s :
  lookup_prop (heap s) l key = Some (PData x) →
  get_prop (VObj l) key s = (Ret x, s).
Proof.
  unfold get_prop, mbind, M_bind, bind, get_state. simpl. by intros ->.
Qed.

Lemma get_prop_builtin l key o s :
  lookup_prop (heap s) l key = None →
  heap s !! l = Some o →
  get_prop (VObj l) key s = (Ret (builtin_member (okind o) key), s).
Proof.
  unfold get_prop, mbind, M_bind, bind, get_state. simpl. by intros -> ->.
Qed.

Lemma call_function f v args code s :
  okind <$> heap s !! f = Some (KFunction code) →
  call_ (VObj f) v args s = run_code code (logged (mkCall (VObj f) v args) s).
Proof.
  unfold call_, mbind, M_bind, bind, get_state. simpl. by intros ->.
Qed.

Lemma call_toISOString d t args s :
  okind <$> heap s !! d = Some (KDate (Some t)) →
  call_ (VBuiltin DateToISOString) (VObj d) args s =
    (Ret (VStr (toISOString t)),
     logged (mkCall (VBuiltin DateToISOString) (VObj d) args) s).
Proof.
  unfold call_, mbind, M_bind, bind, get_state. simpl. by intros ->.
Qed.

Lemma set_prop_own this key v o s :
  lookup_prop (heap s) this key = None →
  heap s !! this = Some o →
  set_prop this key v s =
    (Ret tt, set_heap <[this := mkObj (chain o) (<[key := PData v]> (props o)) (okind o)]> s).
Proof. unfold set_prop. by intros -> ->. Qed.

(** Allocating an object without properties changes no lookup along a
    chain. *)
Lemma lookup_chain_alloc h this o ch key :
  h !! this = None → props o = ∅ →
  lookup_chain (<[this := o]> h) ch key = lookup_chain h ch key.
Proof.
  intros Hnone Hempty. induction ch as [|p ch IH]; [done|]. simpl.
  destruct (decide (p = this)) as [->|Hne].
  - by rewrite lookup_insert_eq, Hnone, Hempty, lookup_empty.
  - rewrite lookup_insert_ne by done. by rewrite IH.
Qed.

Lemma lookup_prop_alloc_other h this o l key :
  h !! this = None → props o = ∅ → l ≠ this →
  lookup_prop (<[this := o]> h) l key = lookup_prop h l key.
Proof.
  intros Hnone Hempty Hne. unfold lookup_prop.
  rewrite lookup_insert_ne by done.
  destruct (h !! l) as [ol|]; [|done].
  destruct (props ol !! key); [done|]. by apply lookup_chain_alloc.
Qed.

(** A fresh instance reads what its prototype reads. *)
Lemma lookup_prop_alloc_this h this p key :
  h !! this = None →
  lookup_prop (<[this := plain (proto_chain h p) ∅]> h) this key =
    lookup_prop h p key.
Proof.
  intros Hnone. unfold lookup_prop at 1.
  rewrite lookup_insert_eq. simpl. rewrite lookup_empty.
  rewrite lookup_chain_alloc by done. unfold lookup_prop.
  destruct (decide (p = this)) as [->|Hne].
  - by rewrite lookup_insert_eq, Hnone.
  - rewrite lookup_insert_ne by done. by destruct (h !! p).
Qed.

End Platform.

Lemma allocated_lookup_this (target : LooseClass) (s : state) (key : string) :
  lookup_prop (heap (allocated target s).2) (allocated target s).1 key =
    lookup_prop (heap s) (prototype target) key.
Proof.
  unfold allocated. simpl.
  apply lookup_prop_alloc_this, not_elem_of_dom, is_fresh.
Qed.

Lemma allocated_lookup_other (target : LooseClass) (s : state) (l : loc) (key : string) :
  is_Some (heap s !! l) →
  lookup_prop (heap (allocated target s).2) l key = lookup_prop (heap s) l key.
Proof.
  intros Hl. unfold allocated. simpl.
  apply lookup_prop_alloc_other; [apply not_elem_of_dom, is_fresh|done|].
  intros ->. apply elem_of_dom in Hl. by apply (is_fresh (dom (heap s))).
Qed.

Lemma allocated_heap_other (target : LooseClass) (s : state) (l : loc) :
  is_Some (heap s !! l) →
  heap (allocated target s).2 !! l = heap s !! l.
Proof.
  intros Hl. unfold allocated. simpl. rewrite lookup_insert_ne; [done|].
  intros <-. apply elem_of_dom in Hl. by apply (is_fresh (dom (heap s))).
Qed.

Lemma allocated_trap (target : LooseClass) (s : state) (p : gmap string value) :
  constructor_trap (heap (allocated target s).2) p = constructor_trap (heap s) p.
Proof.
  unfold constructor_trap.
  destruct (p !! "constructor") as [[| | | | | |f|]|]; try done.
  destruct (heap s !! f) as [fo|] eqn:Hf.
  - rewrite allocated_heap_other, allocated_lookup_other by (by rewrite Hf).
    by rewrite Hf.
  - unfold allocated. simpl.
    destruct (decide (f = fresh (dom (heap s)))) as [->|Hne].
    + by rewrite lookup_insert_eq.
    + by rewrite lookup_insert_ne, Hf.
Qed.

Lemma allocated_keyed (target : LooseClass) (s : state) (p : gmap string value) :
  keyed (heap (allocated target s).2) p = keyed (heap s) p.
Proof. apply keyed_heap. intros q. apply allocated_trap. Qed.

(** ** Constructing a Consumer against a mock

    In a state [s] where the exported container has the field and the
    methods of its class, its provider map inheriting nothing and iterated
    by its keys, the prototype [proto] of Consumer carries the
    [Inject('timeService')] accessor and no [currentDate], and [m] is an
    object whose [getCurrentDate] is the function [f] that returns the Date
    [d] of time value [t]: the override of 'timeService' with [m], then
    [new Consumer()]. *)

Section Scenario.

Variables (s : state) (proto m f d : loc) (t : Z).
Hypothesis Hc : is_container container s = true.
Hypothesis Hin : inherits_nothing container s = true.
Hypothesis Hkeyed : keyed (heap s) (providers_of container s) = true.
Hypothesis Hinj : injected s proto "timeService" "timeService".
Hypothesis Hcur : lookup_prop (heap s) proto "currentDate" = None.
Hypothesis Hm : lookup_prop (heap s) m "getCurrentDate" = Some (PData (VObj f)).
Hypothesis Hf : okind <$> heap s !! f = Some (KFunction (FConst (VObj d))).
Hypothesis Hd : okind <$> heap s !! d = Some (KDate (Some t)).
Hypothesis Hiso : lookup_prop (heap s) d "toISOString" = None.

Let s1 := (Container.provider container (mkProvider (VObj m) "timeService") s).2.
Let this := (allocated (Consumer proto) s1).1.
Let s0 := (allocated (Consumer proto) s1).2.
Let call1 := mkCall (VObj f) (VObj m) [].
Let call2 := mkCall (VBuiltin DateToISOString) (VObj d) [].

Lemma scenario_override :
  Container.provider container (mkProvider (VObj m) "timeService") s = (Ret tt, s1) ∧
  providers_of container s1 !! "timeService" = Some (VObj m) ∧
  inherits_nothing container s1 = true ∧
  keyed (heap s0) (providers_of container s0) = true.
Proof.
  assert ("timeService" ≠ "__proto__") as Ht by discriminate.
  destruct (provider_ok container "timeService" (VObj m) s Hc Hin Ht)
    as (s' & Hs & Hp & Hin').
  assert (s1 = s') as Heq by (unfold s1; by rewrite Hs).
  rewrite <- Heq in Hs, Hp, Hin'.
  split; [done|]. rewrite Hp. split; [by rewrite lookup_insert_eq|].
  split; [done|]. unfold s0.
  rewrite allocated_providers, allocated_keyed, Hp.
  change (heap s1) with (heap (set_provider container "timeService" (VObj m) s).2).
  rewrite (set_provider_keyed container "timeService" (VObj m) s).
  by rewrite keyed_insert.
Qed.

Lemma scenario_heap l : l ≠ container → heap s1 !! l = heap s !! l.
Proof.
  destruct (set_provider_frame container "timeService" (VObj m) s) as (Hfr & _).
  apply Hfr.
Qed.

Lemma scenario_props l key : lookup_prop (heap s1) l key = lookup_prop (heap s) l key.
Proof.
  destruct (set_provider_frame container "timeService" (VObj m) s) as (_ & Hp & _).
  apply Hp.
Qed.

Lemma scenario_allocated l : is_Some (heap s !! l) → is_Some (heap s1 !! l).
Proof.
  destruct (set_provider_frame container "timeService" (VObj m) s)
    as (_ & _ & Hdom & _).
  intros Hl%elem_of_dom. apply elem_of_dom.
  change s1 with (set_provider container "timeService" (VObj m) s).2.
  by rewrite Hdom.
Qed.

Lemma scenario_kind l k :
  okind <$> heap s !! l = Some k → (∀ p pr, k ≠ KContainer p pr) →
  okind <$> heap s0 !! l = Some k.
Proof.
  intros Hk Hnot.
  assert (l ≠ container) as Hne.
  { intros ->. apply is_container_spec in Hc as (ch & ps & p & pr & Hcont).
    rewrite Hcont in Hk. simpl in Hk. injection Hk as <-. by apply (Hnot p pr). }
  unfold s0. rewrite allocated_heap_other.
  - by rewrite scenario_heap.
  - apply scenario_allocated. destruct (heap s !! l); [by eexists|done].
Qed.

Lemma scenario_constructor :
  ∃ s2, Consumer_constructor this s0 = (Ret tt, s2) ∧
        lookup_prop (heap s2) this "currentDate" = Some (PData (VStr (toISOString t))) ∧
        calls s2 = (calls s1 ++ [call1; call2])%list.
Proof.
  destruct scenario_override as (_ & Hp & Hin1 & Hkeyed0).
  assert (is_Some (heap s !! m)) as Hm_alloc.
  { unfold lookup_prop in Hm. destruct (heap s !! m); [by eexists|done]. }
  assert (is_Some (heap s !! d)) as Hd_alloc.
  { destruct (heap s !! d); [by eexists|done]. }
  assert (get_prop (VObj this) "timeService" s0 = (Ret (VObj m), s0)) as E1.
  { rewrite (get_injected s0 this "timeService" "timeService").
    - rewrite (resolve_present container "timeService" (VObj m)); [done|..].
      + unfold inherits_nothing, s0. by rewrite allocated_proto.
      + done.
      + unfold s0. by rewrite allocated_providers.
    - unfold injected, s0, this. by rewrite allocated_lookup_this, scenario_props. }
  assert (get_prop (VObj m) "getCurrentDate" s0 = (Ret (VObj f), s0)) as E2.
  { apply get_prop_data. unfold s0.
    rewrite allocated_lookup_other by (by apply scenario_allocated).
    by rewrite scenario_props. }
  assert (call_ (VObj f) (VObj m) [] s0 = (Ret (VObj d), logged call1 s0)) as E3.
  { rewrite (call_function f (VObj m) [] (FConst (VObj d))); [done|].
    by apply scenario_kind. }
  assert (get_prop (VObj d) "toISOString" (logged call1 s0)
          = (Ret (VBuiltin DateToISOString), logged call1 s0)) as E4.
  { pose proof (scenario_kind d _ Hd) as Hk.
    destruct (heap s0 !! d) as [od|] eqn:Hod; [|by discriminate Hk].
    rewrite (get_prop_builtin d "toISOString" od).
    - simpl in Hk. by injection Hk as ->.
    - change (heap (logged call1 s0)) with (heap s0). unfold s0.
      rewrite allocated_lookup_other by (by apply scenario_allocated).
      by rewrite scenario_props.
    - done. }
  assert (call_ (VBuiltin DateToISOString) (VObj d) [] (logged call1 s0)
          = (Ret (VStr (toISOString t)), logged call2 (logged call1 s0))) as E5.
  { apply call_toISOString. change (heap (logged call1 s0)) with (heap s0).
    by apply scenario_kind. }
  assert (heap s0 !! this = Some (plain (proto_chain (heap s1) proto) ∅)) as Hthis.
  { apply allocated_heap_this. }
  assert (lookup_prop (heap s0) this "currentDate" = None) as Hnone.
  { unfold s0, this. by rewrite allocated_lookup_this, scenario_props. }
  eexists. split; [|split].
  - unfold Consumer_constructor, mbind, M_bind, bind.
    rewrite E1, E2, E3, E4, E5.
    by apply set_prop_own.
  - unfold lookup_prop. simpl. rewrite lookup_insert_eq. simpl.
    by rewrite lookup_insert_eq.
  - simpl. by rewrite <- app_assoc.
Qed.

Lemma scenario_construct :
  ∃ s2, new_ (Consumer proto) s1 = (Ret (VObj this), s2) ∧
        get_prop (VObj this) "currentDate" s2 = (Ret (VStr (toISOString t)), s2) ∧
        calls_since s1 s2 (VObj f) = [call1].
Proof.
  destruct scenario_constructor as (s2 & Hctor & Hcur2 & Hcalls).
  exists s2. split; [|split].
  - rewrite new_eq. fold this s0.
    change (ctor (Consumer proto) this s0)
      with ((Consumer_constructor this;; mret VUndefined) s0).
    unfold mbind, M_bind, bind. by rewrite Hctor.
  - by apply get_prop_data.
  - unfold calls_since. rewrite Hcalls, drop_app_length.
    rewrite filter_cons_True by done.
    by rewrite filter_cons_False by done.
Qed.

End Scenario.

(** C3, as amended.  The provider map of the exported container inheriting
    nothing and being iterated by its keys (no own [length] that is an array
    length, no own [constructor] that is a function whose [prototype] is an
    accessor): after
    [provider({token: 'timeService', userValue: m})] with a mock [m] whose
    [getCurrentDate] is the zero-argument function [() => d], [d] a valid
    Date with the built-in [toISOString], constructing the Consumer
    succeeds, its [currentDate] is the [toISOString()] of that Date, and
    the function has been called exactly once in the construction, on [m]
    and with no arguments. *)
Theorem consumer_reads_mock (s : state) (proto m f d : loc) (t : Z) :
  is_container container s = true →
  inherits_nothing container s = true →
  keyed (heap s) (providers_of container s) = true →
  injected s proto "timeService" "timeService" →
  lookup_prop (heap s) proto "currentDate" = None →
  lookup_prop (heap s) m "getCurrentDate" = Some (PData (VObj f)) →
  okind <$> heap s !! f = Some (KFunction (FConst (VObj d))) →
  okind <$> heap s !! d = Some (KDate (Some t)) →
  lookup_prop (heap s) d "toISOString" = None →
  ∃ s1 this s2,
    Container.provider container (mkProvider (VObj m) "timeService") s = (Ret tt, s1) ∧
    new_ (Consumer proto) s1 = (Ret (VObj this), s2) ∧
    get_prop (VObj this) "currentDate" s2 = (Ret (VStr (toISOString t)), s2) ∧
    calls_since s1 s2 (VObj f) = [mkCall (VObj f) (VObj m) []].
Proof.
  intros Hc Hin Hkeyed Hinj Hcur Hm Hf Hd Hiso.
  destruct (scenario_override s proto m Hc Hin Hkeyed) as (Hs1 & _).
  destruct (scenario_construct s proto m f d t Hc Hin Hkeyed Hinj Hcur Hm Hf Hd Hiso)
    as (s2 & Hnew & Hget & Hcalls).
  eexists _, _, s2. by split.
Qed.

(** The classes loaded at 2020-09-13T12:26:40Z, and a mock whose
    [getCurrentDate] returns the Date of 2020-08-12T00:00:00Z. *)
Lemma consumer_reads_mock_witness :
  let s := ((load_classes;; d ← new_Date 1597190400000; make_mock d)
            (fresh_state 1600000000000)).2 in
  let proto := 5%positive in
  let m := 10%positive in
  let f := 9%positive in
  let d := 8%positive in
  (is_container container s = true ∧
   inherits_nothing container s = true ∧
   keyed (heap s) (providers_of container s) = true ∧
   injected s proto "timeService" "timeService" ∧
   lookup_prop (heap s) proto "currentDate" = None ∧
   lookup_prop (heap s) m "getCurrentDate" = Some (PData (VObj f)) ∧
   okind <$> heap s !! f = Some (KFunction (FConst (VObj d))) ∧
   okind <$> heap s !! d = Some (KDate (Some 1597190400000)) ∧
   lookup_prop (heap s) d "toISOString" = None) ∧
  ∃ s1 this s2,
    Container.provider container (mkProvider (VObj m) "timeService") s = (Ret tt, s1) ∧
    new_ (Consumer proto) s1 = (Ret (VObj this), s2) ∧
    get_prop (VObj this) "currentDate" s2 =
      (Ret (VStr "2020-08-12T00:00:00.000Z"), s2) ∧
    calls_since s1 s2 (VObj f) = [mkCall (VObj f) (VObj m) []].
Proof.
  intros s proto m f d.
  split; [repeat split; vm_compute; reflexivity|].
  apply (consumer_reads_mock s proto m f d 1597190400000);
    vm_compute; reflexivity.
Defined.

(** C3 fails as stated: with the mock whose [getCurrentDate] returns the
    string '2020-08-12', [new Consumer()] calls the mock once and then
    throws a TypeError, a string having no [toISOString]. *)
Lemma consumer_string_mock_counterexample :
  let r := arrange (mret (VStr "2020-08-12")) (fresh_state 1600000000000) in
  r.1 = Ret (5%positive, VObj 9%positive, VObj 8%positive) ∧
  (new_ (Consumer 5%positive) r.2).1 = Throw TypeError ∧
  calls_since r.2 (new_ (Consumer 5%positive) r.2).2 (VObj 8%positive) =
    [mkCall (VObj 8%positive) (VObj 9%positive) []].
Proof. repeat split; vm_compute; reflexivity. Qed.

(** * Further properties of the container and the decorators *)

(** ** The scan of [resolve] *)



(** ** Overrides *)

(** What [resolve] does on a provider map that inherits nothing and whose
    [constructor] runs no getter. *)
Lemma resolve_plain (c : loc) (t : string) (s : state) :
  inherits_nothing c s = true →
  constructor_trap (heap s) (providers_of c s) = false →
  Container.resolve c t s =
    (match (if array_like (providers_of c s) then None else providers_of c s !! t) with
     | Some v => if truthy v then Ret v
                 else Throw (Error ("No provider found for " ++ t))
     | None => Throw (Error ("No provider found for " ++ t))
     end, s).
Proof.
  intros Hin Htrap. destruct (array_like (providers_of c s)) eqn:Harr.
  - by apply resolve_array_like.
  - apply resolve_eq; [done|]. by apply keyed_spec.
Qed.

Lemma array_like_insert (p : gmap string value) (t : string) (v : value) :
  t ≠ "length" → array_like (<[t := v]> p) = array_like p.
Proof. intros Ht. unfold array_like. by rewrite lookup_insert_ne. Qed.

Lemma constructor_trap_insert (h : gmap loc obj) (p : gmap string value)
    (t : string) (v : value) :
  t ≠ "constructor" → constructor_trap h (<[t := v]> p) = constructor_trap h p.
Proof. intros Ht. unfold constructor_trap. by rewrite lookup_insert_ne. Qed.

Lemma set_provider_trap (c : loc) (t : string) (v : value) (s : state)
    (p : gmap string value) :
  constructor_trap (heap (set_provider c t v s).2) p = constructor_trap (heap s) p.
Proof. by destruct (set_provider_frame c t v s) as (_ & _ & _ & _ & _ & _ & H). Qed.

(** The frame of an override, for the container that resolves. *)
Lemma provider_resolve_frame (s : state) (c c' : loc) (t t' : string) (v : value) :
  is_container c s = true →
  inherits_nothing c s = true →
  t ≠ "__proto__" →
  inherits_nothing c' s = true →
  constructor_trap (heap s) (providers_of c' s) = false →
  c' ≠ c ∨ (t' ≠ t ∧ t ≠ "length" ∧ t ≠ "constructor") →
  ∃ s', Container.provider c (mkProvider v t) s = (Ret tt, s') ∧
        providers_of c' s' !! t' = providers_of c' s !! t' ∧
        (Container.resolve c' t' s').1 = (Container.resolve c' t' s).1 ∧
        (∀ l key, lookup_prop (heap s') l key = lookup_prop (heap s) l key).
Proof.
  intros Hc Hin Ht Hin' Htrap Hne.
  destruct (provider_ok c t v s Hc Hin Ht) as (s' & Hs & Hp & Hins).
  assert (s' = (set_provider c t v s).2) as Hs'.
  { change (set_provider c t v s) with (Container.provider c (mkProvider v t) s).
    by rewrite Hs. }
  destruct (set_provider_frame c t v s) as (Hfr & Hlook & _).
  rewrite <- Hs' in Hfr, Hlook.
  exists s'. split; [done|].
  cut (providers_of c' s' !! t' = providers_of c' s !! t' ∧
       (Container.resolve c' t' s').1 = (Container.resolve c' t' s).1).
  { intros [? ?]. by repeat split. }
  destruct (decide (c' = c)) as [->|Hcc].
  - destruct Hne as [?|(Htt & Hlen & Hctor)]; [done|].
    assert (providers_of c s' !! t' = providers_of c s !! t') as He
      by (by rewrite Hp, lookup_insert_ne).
    split; [done|].
    rewrite !resolve_plain; try done.
    + simpl. by rewrite Hp, array_like_insert, lookup_insert_ne.
    + by rewrite Hs', set_provider_trap, <- Hs', Hp, constructor_trap_insert.
  - assert (providers_of c' s' = providers_of c' s) as He
      by (by apply providers_of_heap, Hfr).
    assert (proto_of c' s' = proto_of c' s) as Hpr
      by (by apply proto_of_heap, Hfr).
    split; [by rewrite He|].
    rewrite !resolve_plain; try done.
    + simpl. by rewrite He.
    + unfold inherits_nothing in *. by rewrite Hpr.
    + by rewrite He, Hs', set_provider_trap.
Qed.

(** X2.  An override touches one token of one container.  After
    [c.provider({token: t, userValue: v})], with [t] other than [__proto__]
    and the map of [c] inheriting nothing, a token of another container
    resolves as before, and so does another token of [c] when [t] is
    neither [length] nor [constructor]; the container that resolves has the
    field and the methods of its class, and a map that inherits nothing
    and whose [constructor] runs no getter. *)
Theorem override_frame (s : state) (c c' : loc) (t t' : string) (v : value) :
  is_container c s = true →
  inherits_nothing c s = true →
  t ≠ "__proto__" →
  is_container c' s = true →
  inherits_nothing c' s = true →
  constructor_trap (heap s) (providers_of c' s) = false →
  c' ≠ c ∨ (t' ≠ t ∧ t ≠ "length" ∧ t ≠ "constructor") →
  ∃ s', Container.provider c (mkProvider v t) s = (Ret tt, s') ∧
        providers_of c' s' !! t' = providers_of c' s !! t' ∧
        (Container.resolve c' t' s').1 = (Container.resolve c' t' s).1.
Proof.
  intros Hc Hin Ht _ Hin' Htrap Hne.
  destruct (provider_resolve_frame s c c' t t' v Hc Hin Ht Hin' Htrap Hne)
    as (s' & Hs & Hp & Hr & _).
  by exists s'.
Qed.

(** Overriding 'a' leaves 'b' resolving to what it held. *)
Lemma override_frame_witness :
  let s := (Container.provider container (mkProvider (VStr "x") "b") (fresh_state 0)).2 in
  (is_container container s = true ∧ inherits_nothing container s = true ∧
   "a" ≠ "__proto__" ∧
   constructor_trap (heap s) (providers_of container s) = false ∧
   (container ≠ container ∨ ("b" ≠ "a" ∧ "a" ≠ "length" ∧ "a" ≠ "constructor"))) ∧
  ∃ s', Container.provider container (mkProvider (VNum 1) "a") s = (Ret tt, s') ∧
        providers_of container s' !! "b" = providers_of container s !! "b" ∧
        (Container.resolve container "b" s').1 = (Container.resolve container "b" s).1.
Proof.
  intros s.
  assert ("a" ≠ "__proto__") as Ht by discriminate.
  assert (container ≠ container ∨ ("b" ≠ "a" ∧ "a" ≠ "length" ∧ "a" ≠ "constructor"))
    as Hne by (right; repeat split; discriminate).
  split; [repeat split; try reflexivity; try exact Ht; exact Hne|].
  apply override_frame; try reflexivity; [exact Ht|exact Hne].
Defined.

(** ** Container instances *)

(** X4.  [new Container()] gives an object that did not exist, a Container
    with no provider at all, whatever the exported container holds: every
    [resolve] on it throws, and no other object is changed. *)
Theorem new_container_is_empty (s : state) :
  ∃ c s', new_Container s = (Ret c, s') ∧
          (c ∉ dom (heap s)) ∧
          is_container c s' = true ∧
          (∀ t, Container.resolve c t s' =
                  (Throw (Error ("No provider found for " ++ t)), s')) ∧
          (∀ c', c' ≠ c → heap s' !! c' = heap s !! c').
Proof.
  eexists _, _. split; [reflexivity|]. simpl.
  split; [apply is_fresh|].
  set (c := fresh (dom (heap s))).
  set (s' := set_heap <[c := mkObj [] ∅ (KContainer ∅ ProtoObject)]> s).
  assert (heap s' !! c = Some (mkObj [] ∅ (KContainer ∅ ProtoObject))) as Hc
    by apply lookup_insert_eq.
  assert (providers_of c s' = ∅) as Hp by (unfold providers_of; by rewrite Hc).
  split; [|split].
  - unfold is_container, is_instance, lacks, lookup_prop. by rewrite Hc.
  - intros t. apply resolve_absent.
    + unfold inherits_nothing, proto_of. by rewrite Hc.
    + by rewrite Hp.
    + by rewrite Hp.
  - intros c' Hne. by apply lookup_insert_ne.
Qed.

(** X5.  What a Container other than the exported one reserves, it cannot
    resolve.  After [c.reserve(t, target)], with [t] other than [__proto__]
    and [c] holding no entry for [t], [c.resolve(t)] throws, and it is
    [container.resolve(t)] that returns the new instance; both containers
    have the field and the methods of their class (the exported one before
    the construction too) and a provider map that
    inherits nothing, that of [c] with a [constructor] that runs no getter,
    that of the exported container iterated by its keys after the write. *)
Theorem reserve_unresolvable_on_receiver (s : state) (c : loc) (t : string)
    (target : LooseClass) (v : value) (s1 : state) :
  c ≠ container →
  is_container container s = true →
  new_ target s = (Ret v, s1) →
  t ≠ "__proto__" →
  is_container container s1 = true →
  inherits_nothing container s1 = true →
  keyed (heap s1) (<[t := v]> (providers_of container s1)) = true →
  is_container c s1 = true →
  inherits_nothing c s1 = true →
  constructor_trap (heap s1) (providers_of c s1) = false →
  providers_of c s1 !! t = None →
  ∃ s', Container.reserve c t target s = (Ret tt, s') ∧
        Container.resolve c t s' =
          (Throw (Error ("No provider found for " ++ t)), s') ∧
        Container.resolve container t s' = (Ret v, s').
Proof.
  intros Hne _ Hnew Ht Hc Hin Hk _ Hinc Htrap Habs. rewrite reserve_eq, Hnew.
  destruct (new_returns target s v s1 Hnew) as [Hobj _].
  destruct (provider_ok container t v s1 Hc Hin Ht) as (s' & Hs & Hp & Hin').
  change (Container.provider container (mkProvider v t) s1)
    with (set_provider container t v s1) in Hs.
  assert (s' = (set_provider container t v s1).2) as Hs' by (by rewrite Hs).
  destruct (set_provider_frame container t v s1) as (Hfr & _).
  rewrite <- Hs' in Hfr.
  exists s'. split; [done|]. split.
  - apply resolve_absent.
    + unfold inherits_nothing in *.
      by rewrite (proto_of_heap c s1 s') by (by apply Hfr).
    + rewrite (providers_of_heap c s1 s') by (by apply Hfr).
      by rewrite Hs', set_provider_trap.
    + by rewrite (providers_of_heap c s1 s') by (by apply Hfr).
  - rewrite (resolve_present container t v), (is_object_truthy v Hobj); try done.
    + by rewrite Hp, Hs', set_provider_keyed.
    + by rewrite Hp, lookup_insert_eq.
Qed.

(** A second Container reserves [TimeService] under 'timeService'. *)
Lemma reserve_unresolvable_on_receiver_witness :
  let s := (new_Container (fresh_state 0)).2 in
  let c := 2%positive in
  let target := TimeService 7%positive in
  let s1 := (new_ target s).2 in
  (c ≠ container ∧
   is_container container s = true ∧
   new_ target s = (Ret (VObj 3%positive), s1) ∧
   "timeService" ≠ "__proto__" ∧
   is_container container s1 = true ∧
   inherits_nothing container s1 = true ∧
   keyed (heap s1) (<["timeService" := VObj 3%positive]> (providers_of container s1)) = true ∧
   is_container c s1 = true ∧
   inherits_nothing c s1 = true ∧
   constructor_trap (heap s1) (providers_of c s1) = false ∧
   providers_of c s1 !! "timeService" = None) ∧
  ∃ s', Container.reserve c "timeService" target s = (Ret tt, s') ∧
        Container.resolve c "timeService" s' =
          (Throw (Error "No provider found for timeService"), s') ∧
        Container.resolve container "timeService" s' = (Ret (VObj 3%positive), s').
Proof.
  intros s c target s1.
  assert (c ≠ container) as Hne by discriminate.
  assert ("timeService" ≠ "__proto__") as Ht by discriminate.
  split; [repeat split; try reflexivity; assumption|].
  apply (reserve_unresolvable_on_receiver s c "timeService" target
           (VObj 3%positive) s1); try reflexivity; assumption.
Defined.

(** ** The [Inject] decorator *)

(** X7.  An injected property reads the exported container under its own
    token and nothing else.  An override in another Container instance, or
    of another token that is neither [length] nor [constructor], leaves
    what the property reads unchanged; the override is under a token other
    than [__proto__] on a map that inherits nothing, and the exported
    container has the field and the methods of its class and a map that
    inherits nothing and whose [constructor] runs no getter. *)
Theorem inject_read_frame (s : state) (c : loc) (t : string) (v : value)
    (o : loc) (key tok : string) :
  is_container c s = true →
  inherits_nothing c s = true →
  t ≠ "__proto__" →
  is_container container s = true →
  inherits_nothing container s = true →
  constructor_trap (heap s) (providers_of container s) = false →
  injected s o key tok →
  c ≠ container ∨ (t ≠ tok ∧ t ≠ "length" ∧ t ≠ "constructor") →
  ∃ s', Container.provider c (mkProvider v t) s = (Ret tt, s') ∧
        (get_prop (VObj o) key s').1 = (get_prop (VObj o) key s).1.
Proof.
  intros Hc Hin Ht _ Hin' Htrap Hinj Hne.
  assert (container ≠ c ∨ (tok ≠ t ∧ t ≠ "length" ∧ t ≠ "constructor")) as Hne'.
  { destruct Hne as [?|(? & ? & ?)]; [left|right]; [congruence|].
    repeat split; congruence. }
  destruct (provider_resolve_frame s c container t tok v Hc Hin Ht Hin' Htrap Hne')
    as (s' & Hs & _ & Hr & Hprops).
  exists s'. split; [done|].
  rewrite (get_injected s o key tok Hinj).
  by rewrite (get_injected s' o key tok) by (unfold injected; by rewrite Hprops).
Qed.

(** A property injected with 'dep', holding 'kept'; the override of 'dep'
    goes to a second Container. *)
Lemma inject_read_frame_witness :
  let s := ((o ← alloc (plain [] ∅); Inject "dep" o "dep";;
             Container.provider container (mkProvider (VStr "kept") "dep");;
             new_Container) (fresh_state 0)).2 in
  let o := 2%positive in
  let c := 3%positive in
  (is_container c s = true ∧ inherits_nothing c s = true ∧
   "dep" ≠ "__proto__" ∧
   is_container container s = true ∧ inherits_nothing container s = true ∧
   constructor_trap (heap s) (providers_of container s) = false ∧
   injected s o "dep" "dep" ∧
   (c ≠ container ∨ ("dep" ≠ "dep" ∧ "dep" ≠ "length" ∧ "dep" ≠ "constructor"))) ∧
  ∃ s', Container.provider c (mkProvider (VStr "other") "dep") s = (Ret tt, s') ∧
        (get_prop (VObj o) "dep" s').1 = Ret (VStr "kept").
Proof.
  intros s o c.
  assert (c ≠ container ∨ ("dep" ≠ "dep" ∧ "dep" ≠ "length" ∧ "dep" ≠ "constructor"))
    as Hne by (left; discriminate).
  assert ("dep" ≠ "__proto__") as Ht by discriminate.
  split; [repeat split; try reflexivity; assumption|].
  apply (inject_read_frame s c "dep" (VStr "other") o "dep" "dep");
    try reflexivity; assumption.
Defined.

(** X8.  A property decorated on a class's prototype is what every new
    instance reads: when the constructor body of [new target()] starts,
    [this.key] is [container.resolve(tok)]. *)
Theorem instance_reads_injected (s : state) (target : LooseClass)
    (key tok : string) :
  injected s (prototype target) key tok →
  get_prop (VObj (allocated target s).1) key (allocated target s).2 =
    Container.resolve container tok (allocated target s).2.
Proof.
  intros Hinj. apply get_injected. unfold injected.
  by rewrite allocated_lookup_this.
Qed.

(** A class whose prototype has 'dep' injected with 'dep', which holds
    'v': the new instance reads 'v'. *)
Lemma instance_reads_injected_witness :
  let s := ((p ← alloc (plain [] ∅); Inject "dep" p "dep";;
             Container.provider container (mkProvider (VStr "v") "dep"))
            (fresh_state 0)).2 in
  let target := TimeService 2%positive in
  injected s (prototype target) "dep" "dep" ∧
  get_prop (VObj (allocated target s).1) "dep" (allocated target s).2 =
    (Ret (VStr "v"), (allocated target s).2).
Proof.
  intros s target. split; [reflexivity|].
  rewrite (instance_reads_injected s target "dep" "dep"); reflexivity.
Defined.

(** X9.  An injected property cannot be assigned: a constructor that does
    [this.key = v] on a property decorated on its prototype throws a
    TypeError, and [reserve] of such a class throws it too, writing nothing
    to the container. *)
Theorem injected_property_is_read_only (s : state) (c proto : loc)
    (key tok t : string) (v : value) :
  injected s proto key tok →
  new_ (assigning_class proto key v) s =
    (Throw TypeError, (allocated (assigning_class proto key v) s).2) ∧
  Container.reserve c t (assigning_class proto key v) s =
    (Throw TypeError, (allocated (assigning_class proto key v) s).2) ∧
  providers_of container (allocated (assigning_class proto key v) s).2 =
    providers_of container s.
Proof.
  intros Hinj.
  assert (new_ (assigning_class proto key v) s =
            (Throw TypeError, (allocated (assigning_class proto key v) s).2)) as Hnew.
  { rewrite new_eq.
    change (ctor (assigning_class proto key v))
      with (λ this, set_prop this key v;; mret VUndefined).
    cbv beta. unfold mbind, M_bind, bind, set_prop.
    rewrite (allocated_lookup_this (assigning_class proto key v)). simpl.
    by rewrite Hinj. }
  split; [done|]. split; [by rewrite reserve_eq, Hnew|].
  apply allocated_providers.
Qed.

(** A class that assigns its injected 'dep' in the constructor. *)
Lemma injected_property_is_read_only_witness :
  let s := ((p ← alloc (plain [] ∅); Inject "dep" p "dep") (fresh_state 0)).2 in
  let target := assigning_class 2%positive "dep" (VNum 1) in
  injected s 2%positive "dep" "dep" ∧
  new_ target s = (Throw TypeError, (allocated target s).2) ∧
  Container.reserve container "t" target s = (Throw TypeError, (allocated target s).2) ∧
  providers_of container (allocated target s).2 = providers_of container s.
Proof.
  intros s target. split; [reflexivity|].
  apply (injected_property_is_read_only s container 2%positive "dep" "dep" "t").
  reflexivity.
Defined.

(** ** The sample classes *)

(** X10.  Constructing a Consumer needs 'timeService' resolvable.  The
    exported container having the field and the methods of its class and a
    provider map that inherits nothing and whose [constructor] runs no
    getter: when the map has no entry for 'timeService', or a falsy one,
    [new Consumer()] throws "No provider found for timeService" before
    calling anything, and [Injectable('consumer')] throws the same and
    registers nothing.  A Consumer declared before TimeService fails so. *)
Theorem consumer_needs_time_service (s : state) (proto : loc) :
  is_container container s = true →
  inherits_nothing container s = true →
  constructor_trap (heap s) (providers_of container s) = false →
  injected s proto "timeService" "timeService" →
  (∀ v, providers_of container s !! "timeService" = Some v → truthy v = false) →
  let s0 := (allocated (Consumer proto) s).2 in
  new_ (Consumer proto) s =
    (Throw (Error "No provider found for timeService"), s0) ∧
  Injectable "consumer" (Consumer proto) s =
    (Throw (Error "No provider found for timeService"), s0) ∧
  providers_of container s0 = providers_of container s ∧
  calls s0 = calls s.
Proof.
  intros _ Hin Htrap Hinj Hfalsy s0.
  assert (inherits_nothing container s0 = true) as Hin0.
  { unfold inherits_nothing, s0. by rewrite allocated_proto. }
  assert (constructor_trap (heap s0) (providers_of container s0) = false) as Htrap0.
  { unfold s0. by rewrite allocated_providers, allocated_trap. }
  assert (Container.resolve container "timeService" s0 =
            (Throw (Error "No provider found for timeService"), s0)) as Hres.
  { destruct (providers_of container s0 !! "timeService") as [v|] eqn:Hv.
    - apply (resolve_falsy container "timeService" v s0); try done.
      apply Hfalsy. unfold s0 in Hv. by rewrite allocated_providers in Hv.
    - by apply (resolve_absent container "timeService" s0). }
  assert (new_ (Consumer proto) s =
            (Throw (Error "No provider found for timeService"), s0)) as Hnew.
  { rewrite new_eq.
    change (ctor (Consumer proto))
      with (λ this, Consumer_constructor this;; mret VUndefined).
    cbv beta. unfold Consumer_constructor, mbind, M_bind, bind. fold s0.
    rewrite (get_injected s0 _ "timeService" "timeService")
      by (unfold injected, s0; by rewrite allocated_lookup_this).
    by rewrite Hres. }
  split; [done|]. split.
  - unfold Injectable. by rewrite reserve_eq, Hnew.
  - split; [apply allocated_providers|done].
Qed.

(** [Consumer] declared in the fresh container, with no [TimeService]. *)
Lemma consumer_needs_time_service_witness :
  let s := ((p ← alloc (plain [] ∅); Inject "timeService" p "timeService")
            (fresh_state 0)).2 in
  let proto := 2%positive in
  (is_container container s = true ∧
   inherits_nothing container s = true ∧
   constructor_trap (heap s) (providers_of container s) = false ∧
   injected s proto "timeService" "timeService" ∧
   (∀ v, providers_of container s !! "timeService" = Some v → truthy v = false)) ∧
  declare_Consumer (fresh_state 0) =
    (Throw (Error "No provider found for timeService"), (allocated (Consumer proto) s).2) ∧
  providers_of container (allocated (Consumer proto) s).2 = ∅.
Proof.
  intros s proto.
  assert (∀ v, providers_of container s !! "timeService" = Some v → truthy v = false)
    as Hfalsy by (intros v Hv; discriminate Hv).
  split; [repeat split; try reflexivity; exact Hfalsy|].
  destruct (consumer_needs_time_service s proto eq_refl eq_refl eq_refl eq_refl Hfalsy)
    as (_ & Hinj & Hp & _).
  split.
  - unfold declare_Consumer, mbind, M_bind, bind.
    change (alloc (plain [] ∅) (fresh_state 0)) with (Ret proto, (alloc (plain [] ∅) (fresh_state 0)).2).
    cbv beta iota.
    change (Inject "timeService" proto "timeService" (alloc (plain [] ∅) (fresh_state 0)).2)
      with (Ret tt, s).
    cbv beta iota. by rewrite Hinj.
  - by rewrite Hp.
Defined.

(** Without the condition on what the map inherits the failure is another
    one: an object with an [Inject('x')] accessor under [length] has been
    given as [__proto__], and [new Consumer()] ends in a RangeError. *)
Lemma consumer_inherited_length_example :
  let s := ((p ← alloc (plain [] ∅); Inject "timeService" p "timeService";;
             o ← alloc (plain [] ∅); Inject "x" o "length";;
             Container.provider container (mkProvider (VObj o) "__proto__"))
            (fresh_state 0)).2 in
  injected s 2%positive "timeService" "timeService" ∧
  providers_of container s !! "timeService" = None ∧
  (new_ (Consumer 2%positive) s).1 = Throw RangeError.
Proof. repeat split; vm_compute; reflexivity. Qed.

(** ** Dates of the [TimeService] *)

Lemma time_clip_valid (ms : Z) :
  Z.abs ms ≤ 8640000000000000 → time_clip ms = Some ms.
Proof. intros H%Z.leb_le. unfold time_clip. by rewrite H. Qed.

Lemma getCurrentDate_eq (f : loc) (this : value) (args : list value) (s : state) :
  okind <$> heap s !! f = Some (KFunction FGetCurrentDate) →
  call_ (VObj f) this args s =
    (Ret (VObj (fresh (dom (heap s)))),
     set_heap <[fresh (dom (heap s)) := mkObj [] ∅ (KDate (time_clip (clock s)))]>
       (logged (mkCall (VObj f) this args) s)).
Proof. intros Hf. by rewrite (call_function f this args FGetCurrentDate). Qed.

(** X11.  [getCurrentDate] makes a new Date at every call: the object it
    returns did not exist before, holds the time of the clock (an invalid
    date when that is out of range), no other object changes, and the next
    call returns a different object. *)
Theorem getCurrentDate_returns_fresh_date (s : state) (f : loc) (this : value)
    (args : list value) :
  okind <$> heap s !! f = Some (KFunction FGetCurrentDate) →
  ∃ d s', call_ (VObj f) this args s = (Ret (VObj d), s') ∧
          (d ∉ dom (heap s)) ∧
          heap s' !! d = Some (mkObj [] ∅ (KDate (time_clip (clock s)))) ∧
          (∀ l, l ≠ d → heap s' !! l = heap s !! l) ∧
          (∀ this2 args2 d2 s'',
             call_ (VObj f) this2 args2 s' = (Ret (VObj d2), s'') → d2 ≠ d).
Proof.
  intros Hf. eexists _, _. split; [by apply getCurrentDate_eq|].
  split; [apply is_fresh|]. simpl.
  split; [by rewrite lookup_insert_eq|].
  split; [intros l Hl; by rewrite lookup_insert_ne|].
  intros this2 args2 d2 s'' Hcall.
  rewrite getCurrentDate_eq in Hcall.
  - injection Hcall as <- _. simpl. intros Heq.
    apply (is_fresh (dom (<[fresh (dom (heap s)) := mkObj [] ∅ (KDate (time_clip (clock s)))]> (heap s)))).
    rewrite Heq. rewrite dom_insert_L. apply elem_of_union_l. by apply elem_of_singleton_2.
  - simpl. rewrite lookup_insert_ne; [done|].
    intros Heq. pose proof (is_fresh (dom (heap s))) as Hfresh.
    rewrite Heq in Hfresh. apply not_elem_of_dom in Hfresh.
    by rewrite Hfresh in Hf.
Qed.

(** The method of the registered [TimeService], called at
    2020-08-12T00:00:00Z. *)
Lemma getCurrentDate_returns_fresh_date_witness :
  let s := (declare_TimeService (fresh_state 1597190400000)).2 in
  let f := 2%positive in
  okind <$> heap s !! f = Some (KFunction FGetCurrentDate) ∧
  ∃ d s', call_ (VObj f) (VObj 4%positive) [] s = (Ret (VObj d), s') ∧
          (d ∉ dom (heap s)) ∧
          heap s' !! d = Some (mkObj [] ∅ (KDate (Some 1597190400000))) ∧
          (∀ l, l ≠ d → heap s' !! l = heap s !! l) ∧
          (∀ this2 args2 d2 s'',
             call_ (VObj f) this2 args2 s' = (Ret (VObj d2), s'') → d2 ≠ d).
Proof.
  intros s f. split; [reflexivity|].
  apply (getCurrentDate_returns_fresh_date s f (VObj 4%positive) []). reflexivity.
Defined.

(** ** Constructing a Consumer against the registered TimeService

    In a state [s] where the prototype [proto] of Consumer carries the
    [Inject('timeService')] accessor and no [currentDate], the exported
    container, its provider map inheriting nothing and iterated by its
    keys, holds under 'timeService' an object [ts] whose
    [getCurrentDate] is the method [f] of [TimeService], and the clock is a
    time value: [new Consumer()]. *)

Section Construction.

Variables (s : state) (proto ts f : loc).
Hypothesis Hin : inherits_nothing container s = true.
Hypothesis Hkeyed : keyed (heap s) (providers_of container s) = true.
Hypothesis Hinj : injected s proto "timeService" "timeService".
Hypothesis Hcur : lookup_prop (heap s) proto "currentDate" = None.
Hypothesis Hts : providers_of container s !! "timeService" = Some (VObj ts).
Hypothesis Hservice : is_time_service s ts f.
Hypothesis Hclock : Z.abs (clock s) ≤ 8640000000000000.

Let this := (allocated (Consumer proto) s).1.
Let s0 := (allocated (Consumer proto) s).2.
Let call1 := mkCall (VObj f) (VObj ts) [].
Let d := fresh (dom (heap s0)).
Let date := mkObj [] ∅ (KDate (time_clip (clock s))).
Let sd := set_heap <[d := date]> (logged call1 s0).
Let call2 := mkCall (VBuiltin DateToISOString) (VObj d) [].
Let iso := VStr (toISOString (clock s)).
Let s2 := set_heap
  <[this := mkObj (proto_chain (heap s) proto) (<["currentDate" := PData iso]> ∅) KPlain]>
  (logged call2 sd).

Lemma construction_this : heap s0 !! this = Some (plain (proto_chain (heap s) proto) ∅).
Proof. unfold s0, this, allocated. simpl. by rewrite lookup_insert_eq. Qed.

Lemma construction_date_fresh : heap s0 !! d = None.
Proof. apply not_elem_of_dom, is_fresh. Qed.

Lemma construction_this_not_date : this ≠ d.
Proof.
  intros Heq. pose proof construction_this as Hthis.
  rewrite Heq, construction_date_fresh in Hthis. discriminate.
Qed.

Lemma construction_constructor : Consumer_constructor this s0 = (Ret tt, s2).
Proof.
  destruct Hservice as [Hm Hf].
  assert (is_Some (heap s !! ts)) as Hts_alloc.
  { unfold lookup_prop in Hm. destruct (heap s !! ts); [by eexists|done]. }
  assert (is_Some (heap s !! f)) as Hf_alloc.
  { destruct (heap s !! f); [by eexists|done]. }
  assert (get_prop (VObj this) "timeService" s0 = (Ret (VObj ts), s0)) as E1.
  { rewrite (get_injected s0 this "timeService" "timeService").
    - rewrite (resolve_present container "timeService" (VObj ts)); [done|..].
      + unfold inherits_nothing, s0. by rewrite allocated_proto.
      + unfold s0. by rewrite allocated_providers, allocated_keyed.
      + unfold s0. by rewrite allocated_providers.
    - unfold injected, s0, this. by rewrite allocated_lookup_this. }
  assert (get_prop (VObj ts) "getCurrentDate" s0 = (Ret (VObj f), s0)) as E2.
  { apply get_prop_data. unfold s0. by rewrite allocated_lookup_other. }
  assert (call_ (VObj f) (VObj ts) [] s0 = (Ret (VObj d), sd)) as E3.
  { apply getCurrentDate_eq. unfold s0. by rewrite allocated_heap_other. }
  assert (heap sd !! d = Some date) as Hd.
  { unfold sd. simpl. by rewrite lookup_insert_eq. }
  assert (get_prop (VObj d) "toISOString" sd = (Ret (VBuiltin DateToISOString), sd)) as E4.
  { rewrite (get_prop_builtin d "toISOString" date); [done| |done].
    unfold lookup_prop. by rewrite Hd. }
  assert (call_ (VBuiltin DateToISOString) (VObj d) [] sd = (Ret iso, logged call2 sd)) as E5.
  { apply call_toISOString. rewrite Hd. simpl. by rewrite time_clip_valid. }
  assert (lookup_prop (heap (logged call2 sd)) this "currentDate" = None) as Hnone.
  { change (heap (logged call2 sd)) with (<[d := date]> (heap s0)).
    rewrite lookup_prop_alloc_other;
      [|apply construction_date_fresh|done|apply construction_this_not_date].
    unfold s0, this. by rewrite allocated_lookup_this. }
  assert (heap (logged call2 sd) !! this = Some (plain (proto_chain (heap s) proto) ∅)) as Hthis.
  { change (heap (logged call2 sd)) with (<[d := date]> (heap s0)).
    rewrite lookup_insert_ne by (intros Heq; by apply construction_this_not_date).
    apply construction_this. }
  unfold Consumer_constructor, mbind, M_bind, bind.
  rewrite E1, E2, E3, E4, E5.
  by rewrite (set_prop_own this "currentDate" iso _ _ Hnone Hthis).
Qed.

Lemma construction_frame l : is_Some (heap s !! l) → heap s2 !! l = heap s !! l.
Proof.
  intros Hl.
  assert (heap s0 !! l = heap s !! l) as H0 by (by apply allocated_heap_other).
  assert (l ≠ this) as Hthis.
  { intros ->. apply elem_of_dom in Hl.
    by apply (allocated_fresh (Consumer proto) s). }
  assert (l ≠ d) as Hd.
  { intros ->. rewrite construction_date_fresh in H0.
    rewrite <- H0 in Hl. by destruct Hl. }
  unfold s2, sd. simpl. by rewrite !lookup_insert_ne.
Qed.

Lemma construction_result :
  new_ (Consumer proto) s = (Ret (VObj this), s2) ∧
  lookup_prop (heap s2) this "currentDate" = Some (PData iso) ∧
  calls s2 = (calls s ++ [call1; call2])%list.
Proof.
  split; [|split].
  - rewrite new_eq. fold this s0.
    change (ctor (Consumer proto) this s0)
      with ((Consumer_constructor this;; mret VUndefined) s0).
    unfold mbind, M_bind, bind. by rewrite construction_constructor.
  - unfold lookup_prop, s2. simpl. rewrite lookup_insert_eq. simpl.
    by rewrite lookup_insert_eq.
  - unfold s2, sd. simpl. by rewrite <- app_assoc.
Qed.

End Construction.

(** X12.  A Consumer constructed against the registered [TimeService]
    records the time of its construction.  The exported container having
    the field and the methods of its class and a provider map that inherits
    nothing and is iterated by its keys: [new Consumer()] returns,
    [currentDate] is the ISO string of the clock, [getCurrentDate] has been
    called exactly once, on the registered instance and with no arguments,
    and every object that existed is unchanged. *)
Theorem consumer_records_clock (s : state) (proto ts f : loc) :
  is_container container s = true →
  inherits_nothing container s = true →
  keyed (heap s) (providers_of container s) = true →
  injected s proto "timeService" "timeService" →
  lookup_prop (heap s) proto "currentDate" = None →
  providers_of container s !! "timeService" = Some (VObj ts) →
  is_time_service s ts f →
  Z.abs (clock s) ≤ 8640000000000000 →
  ∃ this s2,
    new_ (Consumer proto) s = (Ret (VObj this), s2) ∧
    get_prop (VObj this) "currentDate" s2 = (Ret (VStr (toISOString (clock s))), s2) ∧
    calls_since s s2 (VObj f) = [mkCall (VObj f) (VObj ts) []] ∧
    (∀ l, is_Some (heap s !! l) → heap s2 !! l = heap s !! l).
Proof.
  intros _ Hin Hkeyed Hinj Hcur Hts Hservice Hclock.
  destruct (construction_result s proto ts f Hin Hkeyed Hinj Hcur Hts Hservice Hclock)
    as (Hnew & Hprop & Hcalls).
  eexists _, _. split; [exact Hnew|]. split; [by apply get_prop_data|]. split.
  - unfold calls_since. rewrite Hcalls, drop_app_length.
    rewrite filter_cons_True by done.
    by rewrite filter_cons_False by done.
  - intros l Hl. by apply construction_frame.
Qed.

(** [TimeService] registered and [Consumer] decorated, at
    2020-08-12T00:00:00Z. *)
Lemma consumer_records_clock_witness :
  let s := ((declare_TimeService;; p ← alloc (plain [] ∅);
             Inject "timeService" p "timeService")
            (fresh_state 1597190400000)).2 in
  let proto := 5%positive in
  let ts := 4%positive in
  let f := 2%positive in
  (is_container container s = true ∧
   inherits_nothing container s = true ∧
   keyed (heap s) (providers_of container s) = true ∧
   injected s proto "timeService" "timeService" ∧
   lookup_prop (heap s) proto "currentDate" = None ∧
   providers_of container s !! "timeService" = Some (VObj ts) ∧
   is_time_service s ts f ∧
   Z.abs (clock s) ≤ 8640000000000000) ∧
  ∃ this s2,
    new_ (Consumer proto) s = (Ret (VObj this), s2) ∧
    get_prop (VObj this) "currentDate" s2 =
      (Ret (VStr "2020-08-12T00:00:00.000Z"), s2) ∧
    calls_since s s2 (VObj f) = [mkCall (VObj f) (VObj ts) []] ∧
    (∀ l, is_Some (heap s !! l) → heap s2 !! l = heap s !! l).
Proof.
  intros s proto ts f.
  assert (is_time_service s ts f) as Hservice by (split; reflexivity).
  assert (Z.abs (clock s) ≤ 8640000000000000) as Hclock
    by (intros H; discriminate H).
  split; [repeat split; try reflexivity; try exact Hclock; apply Hservice|].
  exact (consumer_records_clock s proto ts f eq_refl eq_refl eq_refl
           eq_refl eq_refl eq_refl Hservice Hclock).
Defined.

Lemma keyed_absent (h : gmap loc obj) (p : gmap string value) :
  p !! "length" = None → p !! "constructor" = None → keyed h p = true.
Proof. intros Hl Hc. unfold keyed, array_like, constructor_trap. by rewrite Hl, Hc. Qed.

(** X13.  Loading the module of the sample classes, whatever the time:
    both declarations succeed in source order, 'timeService' and 'consumer'
    resolve to the two instances made by the decorators, and the registered
    Consumer carries the ISO string of the load time. *)
Theorem load_classes_registers_both (now : Z) :
  Z.abs now ≤ 8640000000000000 →
  ∃ consumer s,
    load_classes (fresh_state now) = (Ret (3%positive, 5%positive), s) ∧
    Container.resolve container "timeService" s = (Ret (VObj 4%positive), s) ∧
    Container.resolve container "consumer" s = (Ret (VObj consumer), s) ∧
    get_prop (VObj consumer) "currentDate" s = (Ret (VStr (toISOString now)), s).
Proof.
  intros Hnow.
  set (sA := (declare_TimeService (fresh_state now)).2).
  set (sB := (Inject "timeService" 5%positive "timeService"
                (alloc (plain [] ∅) sA).2).2).
  assert (declare_TimeService (fresh_state now) = (Ret 3%positive, sA)) as EA
    by (vm_compute; reflexivity).
  assert (alloc (plain [] ∅) sA = (Ret 5%positive, (alloc (plain [] ∅) sA).2)) as EB
    by (vm_compute; reflexivity).
  assert (Inject "timeService" 5%positive "timeService" (alloc (plain [] ∅) sA).2
          = (Ret tt, sB)) as EC by (vm_compute; reflexivity).
  assert (is_time_service sB 4%positive 2%positive) as Hservice
    by (split; vm_compute; reflexivity).
  assert (injected sB 5%positive "timeService" "timeService") as Hinj
    by (vm_compute; reflexivity).
  assert (lookup_prop (heap sB) 5%positive "currentDate" = None) as Hcur
    by (vm_compute; reflexivity).
  assert (heap sB !! container =
            Some (mkObj [] ∅ (KContainer {[ "timeService" := VObj 4%positive ]} ProtoObject)))
    as Hobj by (vm_compute; reflexivity).
  assert (providers_of container sB = {[ "timeService" := VObj 4%positive ]}) as HpB
    by (unfold providers_of; by rewrite Hobj).
  assert (inherits_nothing container sB = true) as Hin
    by (unfold inherits_nothing, proto_of; by rewrite Hobj).
  assert (keyed (heap sB) (providers_of container sB) = true) as Hkeyed
    by (rewrite HpB; by apply keyed_absent).
  assert (providers_of container sB !! "timeService" = Some (VObj 4%positive)) as Hts
    by (by rewrite HpB).
  assert (Z.abs (clock sB) ≤ 8640000000000000) as Hclock by exact Hnow.
  destruct (construction_result sB _ _ _ Hin Hkeyed Hinj Hcur Hts Hservice Hclock)
    as (Hnew & Hprop & _).
  pose proof (construction_frame sB 5%positive 4%positive 2%positive container) as Hframe.
  match type of Hnew with _ = (Ret _, ?st) => set (s2 := st) in * end.
  match type of Hnew with _ = (Ret (VObj ?l), _) => set (this := l) in * end.
  assert (heap s2 !! container = heap sB !! container) as Hsame.
  { apply Hframe. rewrite Hobj. by eexists. }
  assert (is_container container s2 = true) as Hc2.
  { unfold is_container, is_instance, lacks, lookup_prop.
    by rewrite Hsame, Hobj. }
  assert (inherits_nothing container s2 = true) as Hin2.
  { unfold inherits_nothing. by rewrite (proto_of_heap container sB s2). }
  assert (providers_of container s2 = {[ "timeService" := VObj 4%positive ]}) as Hp2.
  { by rewrite (providers_of_heap container sB s2). }
  clearbody s2 this.
  assert ("consumer" ≠ "__proto__") as Ht by discriminate.
  destruct (set_provider_ok container "consumer" (VObj this) s2 Hc2 Hin2 Ht)
    as (s' & Hs & Hp & Hpr).
  assert (inherits_nothing container s' = true) as Hin'.
  { unfold inherits_nothing in *. by rewrite Hpr. }
  assert (keyed (heap s') (providers_of container s') = true) as Hkeyed'.
  { rewrite Hp, Hp2. by apply keyed_absent. }
  exists this, s'. split; [|split; [|split]].
  - unfold load_classes, declare_Consumer, Injectable, mbind, M_bind, bind.
    rewrite EA, EB, EC, reserve_eq, Hnew. cbv beta iota. rewrite Hs. reflexivity.
  - rewrite (resolve_present container "timeService" (VObj 4%positive)); try done.
    by rewrite Hp, Hp2.
  - rewrite (resolve_present container "consumer" (VObj this)); try done.
    by rewrite Hp, lookup_insert_eq.
  - apply get_prop_data.
    by rewrite (set_provider_props _ _ _ _ _ Hs).
Qed.

(** The module loaded at 2020-08-12T00:00:00Z. *)
Lemma load_classes_registers_both_witness :
  Z.abs 1597190400000 ≤ 8640000000000000 ∧
  ∃ consumer s,
    load_classes (fresh_state 1597190400000) = (Ret (3%positive, 5%positive), s) ∧
    Container.resolve container "timeService" s = (Ret (VObj 4%positive), s) ∧
    Container.resolve container "consumer" s = (Ret (VObj consumer), s) ∧
    get_prop (VObj consumer) "currentDate" s =
      (Ret (VStr "2020-08-12T00:00:00.000Z"), s).
Proof.
  assert (Z.abs 1597190400000 ≤ 8640000000000000) as Hnow
    by (intros H; discriminate H).
  split; [exact Hnow|].
  exact (load_classes_registers_both 1597190400000 Hnow).
Defined.

(** ** Containers that hold objects only *)






(** ** Registration seen through an injected property *)

(** X15.  An injected property is bound late: a property decorated with
    [Inject(t)] before [t] is registered, or while it holds another
    instance, reads the instance that a later [Injectable(t)] stores, at
    every read.  The token is not [__proto__], and the exported container
    has the field and the methods of its class and a provider map that
    inherits nothing and is iterated by its keys after the write. *)
Theorem inject_reads_later_registration (s : state) (t : string)
    (target : LooseClass) (v : value) (s1 : state) (o : loc) (key : string)
    (n : nat) :
  new_ target s = (Ret v, s1) →
  t ≠ "__proto__" →
  is_container container s = true →
  is_container container s1 = true →
  inherits_nothing container s1 = true →
  keyed (heap s1) (<[t := v]> (providers_of container s1)) = true →
  injected s1 o key t →
  ∃ s', Injectable t target s = (Ret tt, s') ∧
        reads n o key s' = (Ret (replicate n v), s').
Proof.
  intros Hnew Ht _ Hc Hin Hk Hinj. unfold Injectable. rewrite reserve_eq, Hnew.
  destruct (new_returns target s v s1 Hnew) as [Hobj _].
  destruct (set_provider_ok container t v s1 Hc Hin Ht) as (s' & Hs & Hp & Hpr).
  assert (s' = (set_provider container t v s1).2) as Hs' by (by rewrite Hs).
  exists s'. split; [done|]. apply reads_ret.
  rewrite (get_injected s' o key t)
    by (unfold injected; by rewrite (set_provider_props _ _ _ _ _ Hs)).
  rewrite (resolve_present container t v), (is_object_truthy v Hobj); try done.
  - unfold inherits_nothing in *. by rewrite Hpr.
  - by rewrite Hp, Hs', set_provider_keyed.
  - by rewrite Hp, lookup_insert_eq.
Qed.

(** A property injected with 'timeService' while nothing is registered,
    then [@Injectable('timeService') class TimeService]. *)
Lemma inject_reads_later_registration_witness :
  let s := ((o ← alloc (plain [] ∅); Inject "timeService" o "timeService")
            (fresh_state 0)).2 in
  let o := 2%positive in
  let target := TimeService 7%positive in
  let s1 := (new_ target s).2 in
  (new_ target s = (Ret (VObj 3%positive), s1) ∧
   "timeService" ≠ "__proto__" ∧
   is_container container s = true ∧
   is_container container s1 = true ∧
   inherits_nothing container s1 = true ∧
   keyed (heap s1) (<["timeService" := VObj 3%positive]> (providers_of container s1)) = true ∧
   injected s1 o "timeService" "timeService") ∧
  get_prop (VObj o) "timeService" s =
    (Throw (Error "No provider found for timeService"), s) ∧
  ∃ s', Injectable "timeService" target s = (Ret tt, s') ∧
        reads 2 o "timeService" s' = (Ret (replicate 2 (VObj 3%positive)), s').
Proof.
  intros s o target s1.
  assert ("timeService" ≠ "__proto__") as Ht by discriminate.
  split; [repeat split; try reflexivity; exact Ht|]. split; [reflexivity|].
  apply (inject_reads_later_registration s "timeService" target
           (VObj 3%positive) s1); try reflexivity. exact Ht.
Defined.
